(** * MicroML camera driver: FLIR Lepton command protocol over I2C

    A shallow embedding of [projects/camera_stm32f7/utility.c] (monotonic
    clock, byte transport, word codec) and [projects/camera_stm32f7/flir.c]
    (register access, busy-bit polling, GET/SET commands), followed by the
    properties of the driver that its specification states.

    Conventions.
    - A C integer of width [w] is a [Z] in [0, 2^w); every conversion the
      C code performs is written out with [u8], [u16], [u32] or [u64].
    - The peripheral (libopencm3's [i2c_*] calls on [I2C1]) and the SysTick
      interrupt are the environment.  Every call that programs the
      peripheral is appended to a trace; every read of a peripheral flag,
      of the receive register or of the volatile [_millis] is answered by
      the environment as a function of the trace so far, together with the
      number of SysTick interrupts served just before that read.
    - A function of the driver is a state transformer that may fail to
      return: loops whose exit depends on the environment take a bound on
      their iterations and yield [None] when it is exhausted. *)

From Stdlib Require Import ZArith List Bool Lia String.
Import ListNotations.
Open Scope Z_scope.

(** ** Machine integers *)

Definition u8 (x : Z) : Z := x mod 2 ^ 8.
Definition u16 (x : Z) : Z := x mod 2 ^ 16.
Definition u32 (x : Z) : Z := x mod 2 ^ 32.
Definition u64 (x : Z) : Z := x mod 2 ^ 64.

(** ** Constants of the absent headers

    [flir.h], [flir_defines.h] and [utility.h] are not part of the sources
    at hand; the constants the two C files take from them are parameters of
    the development. *)

Class defines := {
  LEP_OK : Z;
  LEP_I2C_DEVICE_ADDRESS : Z;
  LEP_I2C_STATUS_REG : Z;
  LEP_I2C_COMMAND_REG : Z;
  LEP_I2C_DATA_LENGTH_REG : Z;
  LEP_I2C_DATA_0_REG : Z;
  LEP_I2C_DATA_BUFFER : Z;
  LEP_I2C_COMMAND_MODULE_ID_BIT_MASK : Z;
  LEP_I2C_COMMAND_ID_BIT_MASK : Z;
  LEP_I2C_COMMAND_TYPE_BIT_MASK : Z;
  LEP_I2C_STATUS_BUSY_BIT_MASK : Z;
  LEP_I2C_STATUS_ERROR_CODE_BIT_MASK : Z;
  LEP_I2C_STATUS_ERROR_CODE_BIT_SHIFT : Z;
  FLIR_BUSY_TIMEOUT : Z;
  I2C_TIMEOUT : Z;
  I2C_WRITE_DIR : Z;
  I2C_READ_DIR : Z
}.

(** ** The environment *)

(** Calls that program the I2C1 peripheral. *)
Inductive i2c_call : Type :=
| i2c_set_7bit_address (addr : Z)
| i2c_set_write_transfer_dir
| i2c_set_read_transfer_dir
| i2c_set_bytes_to_transfer (n : Z)
| i2c_enable_autoend
| i2c_send_start
| i2c_send_data (b : Z).

(** What the driver can read: the flags TXIS, NACKF and RXNE, the receive
    data register, and the millisecond counter. *)
Inductive port : Type := TXIS | NACKF | RXNE | RXDR | SYSTICK.

Inductive event : Type :=
| Call (c : i2c_call)
| Seen (p : port) (irq : nat) (v : Z).

Record reply : Type := Reply {
  irq : nat;   (* SysTick interrupts served before the read *)
  val : Z      (* value of the flag or register *)
}.

(** The environment answers a read from the events so far, newest first. *)
Class hardware := respond : list event -> port -> reply.

(** ** State of the program *)

Record world : Type := World {
  _millis : Z;              (* static volatile uint64_t _millis *)
  last_flir_error : Z;      (* static uint8_t last_flir_error *)
  trace : list event;       (* newest first *)
  console : list string     (* lines given to printf, newest first *)
}.

Definition set_millis (t : Z) (w : world) : world :=
  World t (last_flir_error w) (trace w) (console w).
Definition set_last_flir_error (e : Z) (w : world) : world :=
  World (_millis w) e (trace w) (console w).
Definition log (e : event) (w : world) : world :=
  World (_millis w) (last_flir_error w) (e :: trace w) (console w).
Definition print (s : string) (w : world) : world :=
  World (_millis w) (last_flir_error w) (trace w) (s :: console w).

(** Events in the order they happened. *)
Definition history (w : world) : list event := rev (trace w).

(** ** Computations *)

Definition M (A : Type) : Type := world -> option (A * world).

Definition ret {A} (a : A) : M A := fun w => Some (a, w).
Definition bind {A B} (m : M A) (k : A -> M B) : M B :=
  fun w => match m w with
           | Some (a, w') => k a w'
           | None => None
           end.
Definition diverge {A} : M A := fun _ => None.

Declare Scope m_scope.
Delimit Scope m_scope with m.
Notation "x <- m ;; k" := (bind m (fun x => k))
  (at level 61, m at next level, right associativity) : m_scope.
Notation "m ;; k" := (bind m (fun _ => k))
  (at level 61, right associativity) : m_scope.
Open Scope m_scope.

Section Driver.
Context `{D : defines} `{H : hardware}.

(** ** utility.c: the monotonic clock *)

(** [sys_tick_handler]: [_millis++] on a [uint64_t]. *)
Definition sys_tick_handler (w : world) : world :=
  set_millis (u64 (_millis w + 1)) w.

(** A read of the environment: the pending interrupts run, then the value
    is taken and the read is recorded. *)
Definition observe (p : port) : M Z := fun w =>
  let r := respond (trace w) p in
  Some (val r,
        log (Seen p (irq r) (val r)) (Nat.iter (irq r) sys_tick_handler w)).

Definition call (c : i2c_call) : M unit := fun w => Some (tt, log (Call c) w).

Definition millis : M Z :=
  _ <- observe SYSTICK ;; fun w => Some (_millis w, w).

Definition i2c_transmit_int_status : M bool :=
  v <- observe TXIS ;; ret (negb (v =? 0)).
Definition i2c_nack : M bool :=
  v <- observe NACKF ;; ret (negb (v =? 0)).
Definition i2c_received_data : M bool :=
  v <- observe RXNE ;; ret (negb (v =? 0)).
Definition i2c_get_data : M Z :=
  v <- observe RXDR ;; ret (u8 v).

(** [delay]: [until = millis() + duration; while (millis() < until);] *)
Fixpoint delay_while (n : nat) (until : Z) : M unit :=
  match n with
  | O => diverge
  | S n' =>
      now <- millis ;;
      if now <? until then delay_while n' until else ret tt
  end.

Definition delay (fuel : nat) (duration : Z) : M unit :=
  now <- millis ;;
  delay_while fuel (u64 (now + duration)).

(** ** utility.c: the byte transport *)

(** [i2c_prepare(I2C1, addr, dir, num_bytes)]; the arguments are [uint8_t],
    callers convert. *)
Definition i2c_prepare (addr dir num_bytes : Z) : M unit :=
  call (i2c_set_7bit_address addr) ;;
  (if negb (dir =? 0)
   then call i2c_set_write_transfer_dir
   else call i2c_set_read_transfer_dir) ;;
  call (i2c_set_bytes_to_transfer num_bytes) ;;
  (if negb (dir =? 0)
   then call i2c_enable_autoend ;; call i2c_send_start
   else call i2c_send_start ;; call i2c_enable_autoend).

(** [wait_for_ack]:
    [while (i2c_nack(I2C1)) if (millis() > until) return false;] *)
Fixpoint wait_for_ack_while (n : nat) (until : Z) : M bool :=
  match n with
  | O => diverge
  | S n' =>
      nack <- i2c_nack ;;
      if nack then
        now <- millis ;;
        if now >? until then ret false else wait_for_ack_while n' until
      else ret true
  end.

Definition wait_for_ack (fuel : nat) (timeout : Z) : M bool :=
  now <- millis ;;
  wait_for_ack_while fuel (u64 (now + timeout)).

(** [wait_for_empty_data_reg]:
    [while (i2c_received_data(I2C1) == 0)
       if (millis() > until) return false;] *)
Fixpoint wait_for_empty_data_reg_while (n : nat) (until : Z) : M bool :=
  match n with
  | O => diverge
  | S n' =>
      rxne <- i2c_received_data ;;
      if negb rxne then
        now <- millis ;;
        if now >? until then ret false
        else wait_for_empty_data_reg_while n' until
      else ret true
  end.

Definition wait_for_empty_data_reg (fuel : nat) (timeout : Z) : M bool :=
  now <- millis ;;
  wait_for_empty_data_reg_while fuel (u64 (now + timeout)).

(** The wait that precedes every transmitted byte:
    [while (wait) { if (i2c_transmit_int_status(I2C1)) wait = false;
                    if (!wait_for_ack(I2C_TIMEOUT)) return false; }]
    The result is [false] when the enclosing function returns [false]. *)
Fixpoint wait_transmit (fuel n : nat) : M bool :=
  match n with
  | O => diverge
  | S n' =>
      txis <- i2c_transmit_int_status ;;
      ack <- wait_for_ack fuel (u32 I2C_TIMEOUT) ;;
      if negb ack then ret false
      else if txis then ret true
      else wait_transmit fuel n'
  end.

(** [i2c_write]: one byte. *)
Definition i2c_write (fuel : nat) (addr data : Z) : M bool :=
  i2c_prepare addr (u8 I2C_WRITE_DIR) 1 ;;
  ok <- wait_transmit fuel fuel ;;
  if ok then call (i2c_send_data data) ;; ret true else ret false.

(** [i2c_write_array]: [while (num_bytes--)] over a [uint8_t] count. *)
Fixpoint i2c_write_array_while (fuel n : nat) (data : list Z) : M bool :=
  match n with
  | O => ret true
  | S n' =>
      ok <- wait_transmit fuel fuel ;;
      if ok then
        call (i2c_send_data (hd 0 data)) ;;
        i2c_write_array_while fuel n' (tl data)
      else ret false
  end.

Definition i2c_write_array (fuel : nat) (addr : Z) (data : list Z)
    (num_bytes : Z) : M bool :=
  i2c_prepare addr (u8 I2C_WRITE_DIR) num_bytes ;;
  i2c_write_array_while fuel (Z.to_nat num_bytes) data.

(** ** utility.c: the word codec *)

(** [i2c_write16]: [for (int i = 0; i < 2; i++)] over [separated_bytes]. *)
Fixpoint i2c_write16_for (fuel : nat) (separated_bytes : list Z) : M bool :=
  match separated_bytes with
  | [] => ret true
  | b :: rest =>
      ok <- wait_transmit fuel fuel ;;
      if ok then call (i2c_send_data b) ;; i2c_write16_for fuel rest
      else ret false
  end.

Definition i2c_write16 (fuel : nat) (addr data : Z) : M bool :=
  let separated_bytes :=
    [Z.land (u8 (Z.shiftr data 8)) 255; Z.land (u8 data) 255] in
  i2c_prepare addr (u8 I2C_WRITE_DIR) 2 ;;
  i2c_write16_for fuel separated_bytes.

(** [i2c_write16_array]: [uint16_t num_bytes = 2 * num_words;
    while (num_bytes--)], alternating high and low byte of [*data]. *)
Fixpoint i2c_write16_array_while (fuel n : nat) (high_byte : bool)
    (data : list Z) : M bool :=
  match n with
  | O => ret true
  | S n' =>
      ok <- wait_transmit fuel fuel ;;
      if ok then
        if high_byte then
          call (i2c_send_data (Z.land (u8 (Z.shiftr (hd 0 data) 8)) 255)) ;;
          i2c_write16_array_while fuel n' false data
        else
          call (i2c_send_data (u8 (Z.land (hd 0 data) 255))) ;;
          i2c_write16_array_while fuel n' true (tl data)
      else ret false
  end.

Definition i2c_write16_array (fuel : nat) (addr : Z) (data : list Z)
    (num_words : Z) : M bool :=
  i2c_prepare addr (u8 I2C_WRITE_DIR) (u8 (2 * num_words)) ;;
  i2c_write16_array_while fuel (Z.to_nat (u16 (2 * num_words))) true data.

(** [i2c_read]: one byte; [None] is the C [false], with [*data] untouched. *)
Definition i2c_read (fuel : nat) (addr : Z) : M (option Z) :=
  i2c_prepare addr (u8 I2C_READ_DIR) 1 ;;
  ok <- wait_for_empty_data_reg fuel (u32 I2C_TIMEOUT) ;;
  if ok then b <- i2c_get_data ;; ret (Some b) else ret None.

(** [i2c_read16]: two bytes joined as
    [(uint16_t)(separated_bytes[0] << 8) | separated_bytes[1]]. *)
Definition i2c_read16 (fuel : nat) (addr : Z) : M (option Z) :=
  i2c_prepare addr (u8 I2C_READ_DIR) 2 ;;
  ok0 <- wait_for_empty_data_reg fuel (u32 I2C_TIMEOUT) ;;
  if ok0 then
    b0 <- i2c_get_data ;;
    ok1 <- wait_for_empty_data_reg fuel (u32 I2C_TIMEOUT) ;;
    if ok1 then
      b1 <- i2c_get_data ;;
      ret (Some (u16 (Z.lor (u16 (Z.shiftl b0 8)) b1)))
    else ret None
  else ret None.

(** A store through a pointer into the caller's array.  A store past the
    end of the array is undefined in C; here it leaves the array as it is. *)
Fixpoint poke (i : nat) (v : Z) (l : list Z) : list Z :=
  match l, i with
  | [], _ => []
  | _ :: t, O => v :: t
  | x :: t, S i' => x :: poke i' v t
  end.

(** [i2c_read_array]: [for (uint8_t i = 0; i < num_bytes; i++)]. *)
Fixpoint i2c_read_array_for (fuel n : nat) (num_bytes i : Z)
    (data : list Z) : M (bool * list Z) :=
  match n with
  | O => diverge
  | S n' =>
      if i <? num_bytes then
        ok <- wait_for_empty_data_reg fuel (u32 I2C_TIMEOUT) ;;
        if ok then
          b <- i2c_get_data ;;
          i2c_read_array_for fuel n' num_bytes (u8 (i + 1))
            (poke (Z.to_nat i) b data)
        else ret (false, data)
      else ret (true, data)
  end.

Definition i2c_read_array (fuel : nat) (addr : Z) (data : list Z)
    (num_bytes : Z) : M (bool * list Z) :=
  i2c_prepare addr (u8 I2C_READ_DIR) num_bytes ;;
  i2c_read_array_for fuel fuel num_bytes 0 data.

(** [i2c_read16_array]: [for (uint8_t i = 0; i < (2 * num_words); i++)];
    [i] is a [uint8_t], the bound [2 * num_words] an [int]; [ptr] is how far
    [data] has moved from the start of the caller's array. *)
Fixpoint i2c_read16_array_for (fuel n : nat) (bound i high low : Z)
    (high_byte : bool) (data : list Z) (ptr : nat) : M (bool * list Z) :=
  match n with
  | O => diverge
  | S n' =>
      if i <? bound then
        ok <- wait_for_empty_data_reg fuel (u32 I2C_TIMEOUT) ;;
        if ok then
          if high_byte then
            b <- i2c_get_data ;;
            i2c_read16_array_for fuel n' bound (u8 (i + 1)) b low false
              data ptr
          else
            b <- i2c_get_data ;;
            i2c_read16_array_for fuel n' bound (u8 (i + 1)) high b true
              (poke ptr (u16 (Z.lor (Z.shiftl high 8) b)) data) (S ptr)
        else ret (false, data)
      else ret (true, data)
  end.

Definition i2c_read16_array (fuel : nat) (addr : Z) (data : list Z)
    (num_words : Z) : M (bool * list Z) :=
  i2c_prepare addr (u8 I2C_READ_DIR) (u8 (2 * num_words)) ;;
  i2c_read16_array_for fuel fuel (2 * num_words) 0 0 0 true data O.

(** ** flir.c: hardware-dependent helpers *)

(** [static void flir_delay(uint32_t delay_in_ms)] *)
Definition flir_delay (fuel : nat) (delay_in_ms : Z) : M unit :=
  delay fuel (u32 delay_in_ms).

(** [static uint32_t flir_millis()]: the 64-bit clock, narrowed. *)
Definition flir_millis : M Z :=
  now <- millis ;; ret (u32 now).

(** ** flir.c: register access *)

(** [write_register]: the pair [{reg_address, value}] as one array write. *)
Definition write_register (fuel : nat) (reg_address value : Z) : M bool :=
  let temp_buf := [reg_address; value] in
  ok <- i2c_write16_array fuel (u8 LEP_I2C_DEVICE_ADDRESS) temp_buf 2 ;;
  if negb ok then ret false else ret true.

(** [read_register]: [None] is the C [false], with [*value] untouched. *)
Definition read_register (fuel : nat) (reg_address : Z) : M (option Z) :=
  ok <- i2c_write16 fuel (u8 LEP_I2C_DEVICE_ADDRESS) reg_address ;;
  if negb ok then ret None
  else i2c_read16 fuel (u8 LEP_I2C_DEVICE_ADDRESS).

(** ** flir.c: the command protocol *)

(** [command_code] *)
Definition command_code (cmd_id cmd_type : Z) : Z :=
  u16 (Z.lor (Z.lor (Z.land cmd_id LEP_I2C_COMMAND_MODULE_ID_BIT_MASK)
                    (Z.land cmd_id LEP_I2C_COMMAND_ID_BIT_MASK))
             (Z.land cmd_type LEP_I2C_COMMAND_TYPE_BIT_MASK)).

Definition busy (status : Z) : bool :=
  negb (Z.land status LEP_I2C_STATUS_BUSY_BIT_MASK =? 0).

(** [(uint8_t)((status & MASK) >> SHIFT)] *)
Definition error_code (status : Z) : Z :=
  u8 (Z.shiftr (Z.land status LEP_I2C_STATUS_ERROR_CODE_BIT_MASK)
               LEP_I2C_STATUS_ERROR_CODE_BIT_SHIFT).

(** The polling loop of [wait_busy_bit]:
    [while ((status & BUSY) && flir_millis() < end_time)
       { flir_delay(1); if (!read_register(STATUS, &status)) return false; }]
    [None] is the [return false] from inside the loop; otherwise the status
    the loop ends with. *)
Fixpoint wait_busy_bit_while (fuel n : nat) (end_time status : Z)
    : M (option Z) :=
  match n with
  | O => diverge
  | S n' =>
      if busy status then
        now <- flir_millis ;;
        if now <? end_time then
          flir_delay fuel 1 ;;
          r <- read_register fuel LEP_I2C_STATUS_REG ;;
          match r with
          | None => ret None
          | Some status' => wait_busy_bit_while fuel n' end_time status'
          end
        else ret (Some status)
      else ret (Some status)
  end.

Definition latch_error (status : Z) : M unit :=
  fun w => Some (tt, set_last_flir_error (error_code status) w).

(** The line [wait_busy_bit] prints when the busy bit outlives the timeout. *)
Definition Fail_3 : string :=
  String.append "Fail 3" (String (Ascii.ascii_of_nat 10) EmptyString).

Definition printf (s : string) : M unit :=
  fun w => Some (tt, print s w).

(** [wait_busy_bit(uint16_t timeout)] *)
Definition wait_busy_bit (fuel : nat) (timeout : Z) : M bool :=
  r <- read_register fuel LEP_I2C_STATUS_REG ;;
  match r with
  | None => ret false
  | Some status =>
      if negb (busy status) then
        latch_error status ;; ret true
      else
        now <- flir_millis ;;
        let end_time := u32 (now + u32 timeout) in
        r' <- wait_busy_bit_while fuel fuel end_time status ;;
        match r' with
        | None => ret false
        | Some status' =>
            if negb (busy status') then
              latch_error status' ;; ret true
            else
              printf Fail_3 ;; ret false
        end
  end.

(** [get_last_flir_result] *)
Definition get_last_flir_result (w : world) : Z := last_flir_error w.

(** [read_data_register(read_words, max_length)]; the second component is
    the caller's array afterwards. *)
Definition read_data_register (fuel : nat) (read_words : list Z)
    (max_length : Z) : M (bool * list Z) :=
  ok <- i2c_write16 fuel (u8 LEP_I2C_DEVICE_ADDRESS) LEP_I2C_DATA_LENGTH_REG ;;
  if negb ok then ret (false, read_words)
  else
    r <- i2c_read16 fuel (u8 LEP_I2C_DEVICE_ADDRESS) ;;
    match r with
    | None => ret (false, read_words)
    | Some num_bytes =>
        if 0 =? num_bytes then ret (false, read_words)
        else if negb (max_length * 2 =? num_bytes) then ret (false, read_words)
        else
          r' <- i2c_read16_array fuel (u8 LEP_I2C_DEVICE_ADDRESS) read_words
                  max_length ;;
          if negb (fst r') then ret (false, snd r') else ret (true, snd r')
    end.

(** [get_flir_command(cmd_code, data_words, num_words)] *)
Definition get_flir_command (fuel : nat) (cmd_code : Z) (data_words : list Z)
    (num_words : Z) : M (bool * list Z) :=
  ready <- wait_busy_bit fuel (u16 FLIR_BUSY_TIMEOUT) ;;
  if ready then
    written <- write_register fuel LEP_I2C_COMMAND_REG cmd_code ;;
    if written then
      done <- wait_busy_bit fuel (u16 FLIR_BUSY_TIMEOUT) ;;
      if done then
        r <- read_data_register fuel data_words num_words ;;
        if fst r then ret (true, snd r) else ret (false, snd r)
      else ret (false, data_words)
    else ret (false, data_words)
  else ret (false, data_words).

(** Modelled from the spec: the address of a SET payload, which
    [write_command_register] selects.  Section 4.5 of the specification:
    address selection depends on payload length, direct slots for at most
    16 words, buffer window otherwise. *)
Definition payload_address (num_words : Z) : Z :=
  if num_words <=? 16 then LEP_I2C_DATA_0_REG else LEP_I2C_DATA_BUFFER.

(** Modelled from the spec: the register write with payload of
    [write_command_register].  Sections 4.3 and 4.4 of the specification:
    a register write is the register address followed by the words, as one
    word-array write, a write transfer of two bytes for each word, high
    byte first.  The transfer holds [num_words + 1] words; that count is
    kept in full, so that the 255 words a [uint8_t] can ask for are
    streamed behind their address like any other payload, while the byte
    count goes through the [uint8_t] parameter of [i2c_prepare]. *)
Definition write_register_with_payload (fuel : nat) (reg_address : Z)
    (data_words : list Z) (num_words : Z) : M bool :=
  i2c_prepare (u8 LEP_I2C_DEVICE_ADDRESS) (u8 I2C_WRITE_DIR)
    (u8 (2 * (num_words + 1))) ;;
  i2c_write16_array_while fuel (Z.to_nat (2 * (num_words + 1))) true
    (reg_address :: data_words).

(** Modelled from the spec: [write_command_register], which
    [set_flir_command] calls.  flir.c holds no definition of it, only a
    commented-out draft written against a transport the sources no longer
    have.  Section 4.5 of the specification, step (b) of a SET: write the
    command register together with the payload words (address selection
    depends on payload length, direct slots for at most 16 words, buffer
    window otherwise) as a single register-write-with-payload sequence.
    Here that sequence is two register writes: the payload at the selected
    address, then the command code at COMMAND.  The result is [0] on
    success, which is what [set_flir_command] tests for, and [1]
    otherwise. *)
Definition write_command_register (fuel : nat) (cmd_code : Z)
    (data_words : list Z) (num_words : Z) : M Z :=
  let reg_address := payload_address num_words in
  stored <- write_register_with_payload fuel reg_address data_words
              num_words ;;
  if stored then
    issued <- write_register fuel LEP_I2C_COMMAND_REG cmd_code ;;
    if issued then ret 0 else ret 1
  else ret 1.

(** [set_flir_command(cmd_code, data_words, num_words)] *)
Definition set_flir_command (fuel : nat) (cmd_code : Z) (data_words : list Z)
    (num_words : Z) : M bool :=
  ready <- wait_busy_bit fuel (u16 FLIR_BUSY_TIMEOUT) ;;
  if ready then
    status <- write_command_register fuel cmd_code data_words num_words ;;
    if status =? 0 then
      done <- wait_busy_bit fuel (u16 FLIR_BUSY_TIMEOUT) ;;
      if done then ret true else ret false
    else ret false
  else ret false.

End Driver.

(** The start of the program: the clock at zero, [last_flir_error = LEP_OK],
    nothing exchanged with the peripheral yet. *)
Definition boot `{D : defines} : world := World 0 (u8 LEP_OK) [] [].

(** ** Concrete constants and environments, for examples

    The register map and bit fields of the Lepton's command and control
    interface as FLIR's interface description gives them, with 50 ms for
    the busy timeout and 10 ms for the bus timeout. *)
Definition lepton : defines := {|
  LEP_OK := 0;
  LEP_I2C_DEVICE_ADDRESS := 0x2A;
  LEP_I2C_STATUS_REG := 0x0002;
  LEP_I2C_COMMAND_REG := 0x0004;
  LEP_I2C_DATA_LENGTH_REG := 0x0006;
  LEP_I2C_DATA_0_REG := 0x0008;
  LEP_I2C_DATA_BUFFER := 0xF800;
  LEP_I2C_COMMAND_MODULE_ID_BIT_MASK := 0x0F00;
  LEP_I2C_COMMAND_ID_BIT_MASK := 0x00FC;
  LEP_I2C_COMMAND_TYPE_BIT_MASK := 0x0003;
  LEP_I2C_STATUS_BUSY_BIT_MASK := 0x0001;
  LEP_I2C_STATUS_ERROR_CODE_BIT_MASK := 0xFF00;
  LEP_I2C_STATUS_ERROR_CODE_BIT_SHIFT := 8;
  FLIR_BUSY_TIMEOUT := 50;
  I2C_TIMEOUT := 10;
  I2C_WRITE_DIR := 1;
  I2C_READ_DIR := 0
|}.

Definition port_eqb (p q : port) : bool :=
  match p, q with
  | TXIS, TXIS | NACKF, NACKF | RXNE, RXNE | RXDR, RXDR
  | SYSTICK, SYSTICK => true
  | _, _ => false
  end.

(** The number of reads of one port in a trace. *)
Fixpoint reads_of (p : port) (h : list event) : nat :=
  match h with
  | [] => O
  | Seen q _ _ :: h' =>
      if port_eqb p q then S (reads_of p h') else reads_of p h'
  | Call _ :: h' => reads_of p h'
  end.

(** The number of reads in a trace. *)
Fixpoint reads (h : list event) : nat :=
  match h with
  | [] => O
  | Seen _ _ _ :: h' => S (reads h')
  | Call _ :: h' => reads h'
  end.

(** An environment that plays back a script: the [k]-th read is answered by
    the [k]-th entry, and by [rest] once the script is used up. *)
Definition replay (script : list reply) (rest : reply) : hardware :=
  fun h _ => nth (reads h) script rest.

(** An environment in which the transmitter is always ready, no byte is
    refused, a received byte is always waiting and every byte read is [b];
    no time passes. *)
Definition steady (b : Z) : hardware :=
  fun _ p => match p with
             | TXIS => Reply 0 1
             | NACKF => Reply 0 0
             | RXNE => Reply 0 1
             | RXDR => Reply 0 b
             | SYSTICK => Reply 0 0
             end.

(** A transport stub that is always ready and hands out the bytes of a list,
    one for each read of the receive register, then zeroes; no time
    passes. *)
Definition feeds (bytes : list Z) : hardware :=
  fun h p => match p with
             | TXIS => Reply 0 1
             | NACKF => Reply 0 0
             | RXNE => Reply 0 1
             | RXDR => Reply 0 (nth (reads_of RXDR h) bytes 0)
             | SYSTICK => Reply 0 0
             end.

(** Scripts for [replay].  [busy_read] answers one [read_register] that
    goes through at once and yields the status word 0x0101, busy bit set;
    [busy_for n] answers a [wait_busy_bit] during which the device stays
    busy for [n] rounds of the polling loop, time passing only in the sleep
    of each round, one millisecond at a time; [bus_failure] answers a first
    busy read, one sleep, and then refuses the register pointer until the
    bus timeout has passed. *)
Definition quiet : reply := Reply 0 0.
Definition one_ms : reply := Reply 1 0.
Definition busy_read : list reply :=
  [Reply 0 1; quiet; Reply 0 0; Reply 0 1; quiet; Reply 0 0;
   quiet; Reply 0 1; Reply 0 1; quiet; Reply 0 1; Reply 0 1].
Definition busy_for (rounds : nat) : list reply :=
  busy_read ++ [quiet]
  ++ List.concat (repeat ([quiet; quiet; one_ms] ++ busy_read) rounds)
  ++ [quiet].
Definition bus_failure : list reply :=
  busy_read ++ [quiet; quiet; quiet; one_ms]
  ++ [Reply 0 1; quiet; Reply 0 1; Reply 11 0].

Definition state_after {A} (m : M A) (w : world) : world :=
  match m w with
  | Some (_, w') => w'
  | None => w
  end.

(** A device that stays busy for two rounds, and the states in which
    [wait_busy_bit], started at [boot] against it, tests the condition of
    its loop. *)
Definition demo_hw : hardware := replay (busy_for 2) quiet.

Fixpoint demo_poll (k : nat) : world :=
  match k with
  | O =>
      state_after
        (_ <- read_register (D := lepton) (H := demo_hw) 4
                (@LEP_I2C_STATUS_REG lepton) ;;
         flir_millis (H := demo_hw))
        (@boot lepton)
  | S k' =>
      state_after
        (_ <- flir_millis (H := demo_hw) ;;
         _ <- flir_delay (H := demo_hw) 4 1 ;;
         read_register (D := lepton) (H := demo_hw) 4
           (@LEP_I2C_STATUS_REG lepton))
        (demo_poll k')
  end.

(** ** Vocabulary of the statements *)

(** What the caller of [wait_busy_bit] has in hand afterwards: the value
    returned and what [get_last_flir_result] gives. *)
Definition caller_view (r : option (bool * world)) : option (bool * Z) :=
  match r with
  | Some (ok, w) => Some (ok, get_last_flir_result w)
  | None => None
  end.

(** A computation leaves a component [f] of the state as it found it. *)
Definition preserves {X A} (f : world -> X) (m : M A) : Prop :=
  forall w a w', m w = Some (a, w') -> f w' = f w.

(** The bytes handed to [i2c_send_data], in the order they were sent. *)
Fixpoint sent_of (t : list event) : list Z :=
  match t with
  | [] => []
  | Call (i2c_send_data b) :: t' => sent_of t' ++ [b]
  | _ :: t' => sent_of t'
  end.
Definition sent (w : world) : list Z := sent_of (trace w).

(** The bytes taken from the receive register by [i2c_get_data], in the
    order they were received. *)
Fixpoint received_of (t : list event) : list Z :=
  match t with
  | [] => []
  | Seen RXDR _ v :: t' => received_of t' ++ [u8 v]
  | _ :: t' => received_of t'
  end.
Definition received (w : world) : list Z := received_of (trace w).

(** What one call added to them. *)
Definition sent_during (w w' : world) : list Z :=
  skipn (List.length (sent w)) (sent w').
Definition received_during (w w' : world) : list Z :=
  skipn (List.length (received w)) (received w').

(** The two bytes [i2c_write16_array] sends for each word, as it computes
    them. *)
Definition word_bytes (words : list Z) : list Z :=
  flat_map (fun x => [Z.land (u8 (Z.shiftr x 8)) 255; u8 (Z.land x 255)])
           words.

(** A transport that hands back what was written to it: always ready, and
    the [k]-th byte taken from the receive register is the [k]-th byte that
    was sent; the clock advances by one millisecond at each reading. *)
Definition echo : hardware :=
  fun h p => match p with
             | TXIS => Reply 0 1
             | NACKF => Reply 0 0
             | RXNE => Reply 0 1
             | RXDR => Reply 0 (nth (List.length (received_of h)) (sent_of h) 0)
             | SYSTICK => Reply 1 0
             end.

(** A transport on which [n] bytes arrive, each of them [b], each only at
    the second poll of the wait for it, and none after them; the clock
    advances by one millisecond at each reading. *)
Definition trickle (n : nat) (b : Z) : hardware :=
  fun h p => match p with
             | RXNE =>
                 Reply 0 (if (reads_of RXDR h <? n)%nat
                             && Nat.odd (reads_of RXNE h)
                          then 1 else 0)
             | RXDR => Reply 0 b
             | SYSTICK => Reply 1 0
             | _ => Reply 0 0
             end.

(** A [wait_busy_bit] during which the device stays busy for [rounds]
    rounds of the polling loop, as in [busy_for], and then refuses the
    register pointer of the next STATUS read until the bus timeout has
    passed. *)
Definition bus_failure_after (rounds : nat) : list reply :=
  busy_read ++ [quiet]
  ++ List.concat (repeat ([quiet; quiet; one_ms] ++ busy_read) rounds)
  ++ [quiet; quiet; one_ms]
  ++ [Reply 0 1; quiet; Reply 0 1; Reply 11 0].

Section Runs.
Context `{D : defines} `{H : hardware}.

(** The arrival of the next [k] bytes, as the read loops of the transport
    meet it: before each byte the wait [wait_for_empty_data_reg], then the
    byte is taken.  The result is [true] when every one of the [k] waits
    ended with its byte there, and [false] at the first wait that ran into
    the bus timeout, in the state that wait left. *)
Fixpoint arrive (fuel k : nat) : M bool :=
  match k with
  | O => ret true
  | S k' =>
      ok <- wait_for_empty_data_reg fuel (u32 I2C_TIMEOUT) ;;
      if ok then i2c_get_data ;; arrive fuel k' else ret false
  end.

(** Rounds of the polling loop of [wait_busy_bit] that go through:
    [polling fuel end_time k status w status' w'] when [k] rounds lead from
    the test of the loop with [status] in state [w] to its test with
    [status'] in state [w'].  In each round the busy bit is set, the clock
    is read before the deadline, the sleep returns and the read of STATUS
    succeeds. *)
Inductive polling (fuel : nat) (end_time : Z)
    : nat -> Z -> world -> Z -> world -> Prop :=
| polling_done status w : polling fuel end_time O status w status w
| polling_round k status w now w1 w2 status1 w3 status' w' :
    busy status = true ->
    flir_millis w = Some (now, w1) ->
    now < end_time ->
    flir_delay fuel 1 w1 = Some (tt, w2) ->
    read_register fuel LEP_I2C_STATUS_REG w2 = Some (Some status1, w3) ->
    polling fuel end_time k status1 w3 status' w' ->
    polling fuel end_time (S k) status w status' w'.

End Runs.

(** ** Vocabulary of the further properties *)

(** The byte counts handed to [i2c_set_bytes_to_transfer], in the order
    they were programmed. *)
Fixpoint programmed_of (t : list event) : list Z :=
  match t with
  | [] => []
  | Call (i2c_set_bytes_to_transfer n) :: t' => programmed_of t' ++ [n]
  | _ :: t' => programmed_of t'
  end.
Definition programmed (w : world) : list Z := programmed_of (trace w).
Definition programmed_during (w w' : world) : list Z :=
  skipn (List.length (programmed w)) (programmed w').

(** The words [i2c_read16_array] makes of the bytes it receives, pair by
    pair, as it computes them; a last byte without its partner makes no
    word. *)
Fixpoint words_of (bytes : list Z) : list Z :=
  match bytes with
  | high :: low :: rest => u16 (Z.lor (Z.shiftl high 8) low) :: words_of rest
  | _ => []
  end.

(** Successive stores through a pointer that starts [ptr] elements into
    the caller's array. *)
Fixpoint put (ptr : nat) (values : list Z) (data : list Z) : list Z :=
  match values with
  | [] => data
  | x :: rest => put (S ptr) rest (poke ptr x data)
  end.

(** An environment in which the transmitter never becomes ready and no
    byte is ever refused; and one in which every byte is refused while the
    clock advances by one millisecond at each reading. *)
Definition never_ready : hardware := fun _ _ => Reply 0 0.
Definition refusing : hardware :=
  fun _ p => match p with
             | SYSTICK => Reply 1 0
             | _ => Reply 0 1
             end.

(** An environment that is always ready, hands out the bytes of a list
    like [feeds], and in which the clock advances by one millisecond at
    each reading. *)
Definition ticking (bytes : list Z) : hardware :=
  fun h p => match p with
             | TXIS => Reply 0 1
             | NACKF => Reply 0 0
             | RXNE => Reply 0 1
             | RXDR => Reply 0 (nth (reads_of RXDR h) bytes 0)
             | SYSTICK => Reply 1 0
             end.

(** ** elephant_stm32f7/src/main_functions.cc *)

Module main_functions.

(** The two fields of a [TfLiteTensor] that [load_data] touches: [bytes]
    and the [int8] view of [data]. *)
Record TfLiteTensor : Type := Tensor {
  bytes : Z;
  data_int8 : list Z
}.

(** [load_data]: [for (int i = 0; i < input->bytes; ++i)
    input->data.int8[i] = data[i];].  A read past the end of [data] is
    undefined in C; here it yields 0. *)
Fixpoint load_data_for (n i : nat) (data : list Z) (int8 : list Z) : list Z :=
  match n with
  | O => int8
  | S n' => load_data_for n' (S i) data (poke i (nth i data 0) int8)
  end.

Definition load_data (data : list Z) (input : TfLiteTensor) : TfLiteTensor :=
  Tensor (bytes input)
         (load_data_for (Z.to_nat (bytes input)) O data (data_int8 input)).

End main_functions.

(** * Properties *)

(** ** Machine integers *)

Lemma u16_land x : u16 x = Z.land x (Z.ones 16).
Proof. unfold u16. rewrite Z.land_ones by lia. reflexivity. Qed.

Lemma fits_16 m : 0 <= m < 2 ^ 16 -> Z.land m (Z.ones 16) = m.
Proof. intros R. rewrite Z.land_ones by lia. apply Z.mod_small. exact R. Qed.

Lemma u8_range x : 0 <= u8 x < 2 ^ 8.
Proof. unfold u8. apply Z.mod_pos_bound. lia. Qed.

Lemma high_byte_of V :
  0 <= V < 2 ^ 16 -> Z.land (u8 (Z.shiftr V 8)) 255 = Z.shiftr V 8.
Proof.
  intros R. unfold u8. rewrite Z.shiftr_div_pow2 by lia.
  assert (0 <= V / 2 ^ 8 < 2 ^ 8).
  { split; [apply Z.div_pos; lia | apply Z.div_lt_upper_bound; lia]. }
  rewrite Z.mod_small by assumption.
  change 255 with (Z.ones 8). rewrite Z.land_ones by lia.
  apply Z.mod_small. assumption.
Qed.

Lemma low_byte_of V : Z.land (u8 V) 255 = Z.land V 255.
Proof.
  unfold u8. change 255 with (Z.ones 8). rewrite !Z.land_ones by lia.
  apply Z.mod_mod. lia.
Qed.

Lemma join_bytes hi lo :
  0 <= hi < 2 ^ 8 -> 0 <= lo < 2 ^ 8 ->
  u16 (Z.lor (u16 (Z.shiftl hi 8)) lo) = Z.lor (Z.shiftl hi 8) lo.
Proof.
  intros Rh Rl.
  assert (Sh : 0 <= Z.shiftl hi 8 < 2 ^ 16).
  { rewrite Z.shiftl_mul_pow2 by lia. lia. }
  rewrite !u16_land, (fits_16 _ Sh), Z.land_lor_distr_l, (fits_16 _ Sh).
  rewrite (fits_16 lo) by lia. reflexivity.
Qed.

Lemma split_join V :
  0 <= V < 2 ^ 16 -> Z.lor (Z.shiftl (Z.shiftr V 8) 8) (Z.land V 255) = V.
Proof.
  intros R. apply Z.bits_inj'. intros n Hn.
  rewrite Z.lor_spec, Z.land_spec. change 255 with (Z.ones 8).
  destruct (Z.ltb_spec n 8) as [Lt|Ge].
  - rewrite Z.shiftl_spec_low by assumption.
    rewrite Z.ones_spec_low by lia. simpl. apply andb_true_r.
  - rewrite Z.shiftl_spec by lia. rewrite Z.shiftr_spec by lia.
    rewrite Z.ones_spec_high by lia.
    replace (n - 8 + 8) with n by lia.
    rewrite andb_false_r, orb_false_r. reflexivity.
Qed.

(** ** Reasoning about computations *)

Lemma bind_Some {A B} (m : M A) (k : A -> M B) w r :
  bind m k w = Some r ->
  exists a w1, m w = Some (a, w1) /\ k a w1 = Some r.
Proof.
  unfold bind. destruct (m w) as [[a w1]|]; [eauto | discriminate].
Qed.

Lemma bind_eq {A B} (m : M A) (k : A -> M B) w a w1 :
  m w = Some (a, w1) -> bind m k w = k a w1.
Proof. unfold bind. intros ->. reflexivity. Qed.

Lemma preserves_ret {X A} (f : world -> X) (a : A) : preserves f (ret a).
Proof. intros w a' w' E. inversion E. reflexivity. Qed.

Lemma preserves_diverge {X A} (f : world -> X) : preserves f (@diverge A).
Proof. intros w a' w' E. discriminate. Qed.

Lemma preserves_bind {X A B} (f : world -> X) (m : M A) (k : A -> M B) :
  preserves f m -> (forall a, preserves f (k a)) -> preserves f (bind m k).
Proof.
  intros Hm Hk w b w' E. apply bind_Some in E as (a & w1 & E1 & E2).
  rewrite (Hk _ _ _ _ E2). eauto.
Qed.

Ltac frame_step :=
  match goal with
  | |- preserves _ (ret _) => apply preserves_ret
  | |- preserves _ diverge => apply preserves_diverge
  | |- preserves _ (bind _ _) => apply preserves_bind; [ | intros ? ]
  | |- preserves _ (if ?b then _ else _) => destruct b
  | |- preserves _ (match ?x with Some _ => _ | None => _ end) => destruct x
  | |- preserves _ _ => assumption
  end.
Ltac frame := repeat frame_step.

(** ** Frame lemmas

    What the waits of the byte transport leave untouched: any component of
    the state that the clock, the reads of flags and the programming of a
    transfer do not change. *)

Section Frame.
Context `{D : defines} `{H : hardware} {X : Type} (f : world -> X).
Hypothesis f_clock : forall t w, f (set_millis t w) = f w.
Hypothesis f_seen :
  forall p n v w, p <> RXDR -> f (log (Seen p n v) w) = f w.
Hypothesis f_call :
  forall c w, (forall b, c <> i2c_send_data b) -> f (log (Call c) w) = f w.

Lemma frame_ticks n w : f (Nat.iter n sys_tick_handler w) = f w.
Proof.
  induction n as [|n IH]; simpl; [reflexivity|].
  unfold sys_tick_handler at 1. rewrite f_clock. exact IH.
Qed.

Lemma frame_observe p : p <> RXDR -> preserves f (observe p).
Proof.
  intros Hp w a w' E. unfold observe in E. inversion E; subst; clear E.
  rewrite f_seen by assumption. apply frame_ticks.
Qed.

Lemma frame_call c : (forall b, c <> i2c_send_data b) -> preserves f (call c).
Proof.
  intros Hc w a w' E. unfold call in E. inversion E; subst. now apply f_call.
Qed.

Lemma frame_millis : preserves f millis.
Proof.
  unfold millis. apply preserves_bind.
  - apply frame_observe. discriminate.
  - intros _ w a w' E. inversion E. reflexivity.
Qed.

Lemma frame_flag p (g : Z -> bool) :
  p <> RXDR -> preserves f (v <- observe p ;; ret (g v)).
Proof. intros Hp. frame. now apply frame_observe. Qed.

Lemma frame_delay_while n until : preserves f (delay_while n until).
Proof.
  induction n as [|n IH]; simpl; frame. apply frame_millis.
Qed.

Lemma frame_delay fuel d : preserves f (delay fuel d).
Proof.
  unfold delay. frame; [apply frame_millis | apply frame_delay_while].
Qed.

Lemma frame_i2c_prepare addr dir n : preserves f (i2c_prepare addr dir n).
Proof.
  unfold i2c_prepare. frame; apply frame_call; discriminate.
Qed.

Lemma frame_wait_for_ack_while n until :
  preserves f (wait_for_ack_while n until).
Proof.
  induction n as [|n IH]; simpl; frame.
  - apply frame_flag. discriminate.
  - apply frame_millis.
Qed.

Lemma frame_wait_for_ack fuel t : preserves f (wait_for_ack fuel t).
Proof.
  unfold wait_for_ack. frame;
    [apply frame_millis | apply frame_wait_for_ack_while].
Qed.

Lemma frame_wait_for_empty_data_reg_while n until :
  preserves f (wait_for_empty_data_reg_while n until).
Proof.
  induction n as [|n IH]; simpl; frame.
  - apply frame_flag. discriminate.
  - apply frame_millis.
Qed.

Lemma frame_wait_for_empty_data_reg fuel t :
  preserves f (wait_for_empty_data_reg fuel t).
Proof.
  unfold wait_for_empty_data_reg. frame;
    [apply frame_millis | apply frame_wait_for_empty_data_reg_while].
Qed.

Lemma frame_wait_transmit fuel n : preserves f (wait_transmit fuel n).
Proof.
  induction n as [|n IH]; simpl; frame.
  - apply frame_flag. discriminate.
  - apply frame_wait_for_ack.
Qed.

End Frame.

(** What no action on the bus or the clock changes: the last-error slot and
    the console. *)

Section FrameAll.
Context `{D : defines} `{H : hardware} {X : Type} (f : world -> X).
Hypothesis f_clock : forall t w, f (set_millis t w) = f w.
Hypothesis f_log : forall e w, f (log e w) = f w.

Lemma keep_seen p n v w : p <> RXDR -> f (log (Seen p n v) w) = f w.
Proof. intros. apply f_log. Qed.

Lemma keep_control c w :
  (forall b, c <> i2c_send_data b) -> f (log (Call c) w) = f w.
Proof. intros. apply f_log. Qed.

Lemma keep_call c : preserves f (call c).
Proof. intros w a w' E. unfold call in E. inversion E. apply f_log. Qed.

Lemma keep_i2c_get_data : preserves f i2c_get_data.
Proof.
  unfold i2c_get_data. frame. intros w a w' E. unfold observe in E.
  inversion E. rewrite f_log. apply frame_ticks. exact f_clock.
Qed.

Lemma keep_i2c_write16_for fuel bytes :
  preserves f (i2c_write16_for fuel bytes).
Proof.
  induction bytes as [|b rest IH]; simpl; frame.
  - apply frame_wait_transmit; [exact f_clock | exact keep_seen].
  - apply keep_call.
Qed.

Lemma keep_i2c_write16 fuel addr data :
  preserves f (i2c_write16 fuel addr data).
Proof.
  unfold i2c_write16. frame.
  - apply frame_i2c_prepare. exact keep_control.
  - apply keep_i2c_write16_for.
Qed.

Lemma keep_i2c_read16 fuel addr : preserves f (i2c_read16 fuel addr).
Proof.
  unfold i2c_read16. frame;
    solve [ apply frame_i2c_prepare; exact keep_control
          | apply frame_wait_for_empty_data_reg;
              [exact f_clock | exact keep_seen]
          | apply keep_i2c_get_data ].
Qed.

Lemma keep_read_register fuel reg : preserves f (read_register fuel reg).
Proof.
  unfold read_register. frame;
    [apply keep_i2c_write16 | apply keep_i2c_read16].
Qed.

Lemma keep_flir_millis : preserves f flir_millis.
Proof.
  unfold flir_millis. frame.
  apply frame_millis; [exact f_clock | exact keep_seen].
Qed.

Lemma keep_flir_delay fuel d : preserves f (flir_delay fuel d).
Proof.
  unfold flir_delay. apply frame_delay; [exact f_clock | exact keep_seen].
Qed.

Lemma keep_wait_busy_bit_while fuel n end_time status :
  preserves f (wait_busy_bit_while fuel n end_time status).
Proof.
  revert status. induction n as [|n IH]; intros status; simpl; frame.
  - apply keep_flir_millis.
  - apply keep_flir_delay.
  - apply keep_read_register.
  - apply IH.
Qed.

End FrameAll.

Ltac keeps_error lem :=
  eapply lem with (f := last_flir_error);
  first [ eassumption | intros; reflexivity ].

(** ** Setting up a transfer *)

Section Prepare.

(** C2. [i2c_prepare] always returns, and what it adds to the history of
    the peripheral is, for a write ([dir] non-zero): address, direction,
    byte count, then [i2c_enable_autoend] and after it [i2c_send_start];
    for a read ([dir] zero): address, direction, byte count, then
    [i2c_send_start] and only after it [i2c_enable_autoend]. *)
Theorem i2c_prepare_order addr dir num_bytes w :
  exists w',
    i2c_prepare addr dir num_bytes w = Some (tt, w') /\
    (dir <> 0 ->
       history w' = history w ++
         [Call (i2c_set_7bit_address addr);
          Call i2c_set_write_transfer_dir;
          Call (i2c_set_bytes_to_transfer num_bytes);
          Call i2c_enable_autoend;
          Call i2c_send_start]) /\
    (dir = 0 ->
       history w' = history w ++
         [Call (i2c_set_7bit_address addr);
          Call i2c_set_read_transfer_dir;
          Call (i2c_set_bytes_to_transfer num_bytes);
          Call i2c_send_start;
          Call i2c_enable_autoend]).
Proof.
  unfold i2c_prepare, history. destruct (dir =? 0) eqn:E.
  - apply Z.eqb_eq in E. eexists. split; [reflexivity|]. split.
    + intros N. contradiction.
    + intros _. simpl. repeat rewrite <- app_assoc. reflexivity.
  - apply Z.eqb_neq in E. eexists. split; [reflexivity|]. split.
    + intros _. simpl. repeat rewrite <- app_assoc. reflexivity.
    + intros N. contradiction.
Qed.

End Prepare.

Lemma i2c_prepare_order_witness :
  exists w',
    i2c_prepare 0x2A 1 2 (@boot lepton) = Some (tt, w') /\
    history w' =
      [Call (i2c_set_7bit_address 0x2A); Call i2c_set_write_transfer_dir;
       Call (i2c_set_bytes_to_transfer 2); Call i2c_enable_autoend;
       Call i2c_send_start].
Proof.
  destruct (i2c_prepare_order 0x2A 1 2 (@boot lepton))
    as (w' & E & Wr & _).
  exists w'. split; [exact E|]. apply Wr. discriminate.
Defined.

(** ** The word codec *)

Section WordCodec.
Context `{D : defines} `{H : hardware}.

Lemma sent_clock t w : sent (set_millis t w) = sent w.
Proof. reflexivity. Qed.
Lemma sent_seen p n v w : p <> RXDR -> sent (log (Seen p n v) w) = sent w.
Proof. reflexivity. Qed.
Lemma sent_call c w :
  (forall b, c <> i2c_send_data b) -> sent (log (Call c) w) = sent w.
Proof. intros N. destruct c; try reflexivity. now destruct (N b). Qed.

Lemma received_clock t w : received (set_millis t w) = received w.
Proof. reflexivity. Qed.
Lemma received_seen p n v w :
  p <> RXDR -> received (log (Seen p n v) w) = received w.
Proof. intros N. destruct p; try reflexivity. now destruct N. Qed.
Lemma received_call c w :
  (forall b, c <> i2c_send_data b) -> received (log (Call c) w) = received w.
Proof. reflexivity. Qed.

Lemma sent_i2c_send_data b w u w' :
  call (i2c_send_data b) w = Some (u, w') -> sent w' = sent w ++ [b].
Proof. unfold call. intros E. inversion E. reflexivity. Qed.

Lemma received_i2c_get_data w b w' :
  i2c_get_data w = Some (b, w') ->
  received w' = received w ++ [b] /\ 0 <= b < 2 ^ 8.
Proof.
  unfold i2c_get_data. intros E. apply bind_Some in E as (v & w1 & E1 & E2).
  unfold observe in E1. inversion E1; subst; clear E1.
  inversion E2; subst; clear E2. split; [|apply u8_range].
  unfold received. simpl. f_equal.
  change (received_of (trace (Nat.iter (irq (respond (trace w) RXDR))
                                sys_tick_handler w)))
    with (received (Nat.iter (irq (respond (trace w) RXDR))
                      sys_tick_handler w)).
  apply (frame_ticks received received_clock).
Qed.

Lemma during_app {A} (l new : list A) :
  skipn (List.length l) (l ++ new) = new.
Proof.
  rewrite skipn_app, skipn_all, Nat.sub_diag. reflexivity.
Qed.

Lemma i2c_write16_for_sent fuel bytes w w' :
  i2c_write16_for fuel bytes w = Some (true, w') -> sent w' = sent w ++ bytes.
Proof.
  revert w. induction bytes as [|b rest IH]; intros w E; simpl in E.
  - inversion E. now rewrite app_nil_r.
  - apply bind_Some in E as (ok & w1 & E1 & E).
    destruct ok; [|inversion E].
    apply bind_Some in E as (u & w2 & E2 & E).
    apply IH in E. rewrite E. apply sent_i2c_send_data in E2. rewrite E2.
    rewrite (frame_wait_transmit sent sent_clock sent_seen _ _ _ _ _ E1).
    rewrite <- app_assoc. reflexivity.
Qed.

Lemma i2c_write16_sent fuel addr data w w' :
  i2c_write16 fuel addr data w = Some (true, w') ->
  sent_during w w'
  = [Z.land (u8 (Z.shiftr data 8)) 255; Z.land (u8 data) 255].
Proof.
  unfold i2c_write16. intros E. apply bind_Some in E as (u & w1 & E1 & E).
  apply i2c_write16_for_sent in E. unfold sent_during. rewrite E.
  rewrite (frame_i2c_prepare sent sent_call _ _ _ _ _ _ E1).
  apply during_app.
Qed.

Lemma i2c_read16_received fuel addr w v w' :
  i2c_read16 fuel addr w = Some (Some v, w') ->
  exists high low,
    received_during w w' = [high; low] /\
    0 <= high < 2 ^ 8 /\ 0 <= low < 2 ^ 8 /\
    v = Z.lor (Z.shiftl high 8) low.
Proof.
  unfold i2c_read16. intros E.
  apply bind_Some in E as (u & w1 & E1 & E).
  apply (frame_i2c_prepare received received_call) in E1.
  apply bind_Some in E as (ok0 & w2 & E2 & E).
  apply (frame_wait_for_empty_data_reg received received_clock received_seen)
    in E2.
  destruct ok0; [|inversion E].
  apply bind_Some in E as (b0 & w3 & E3 & E).
  apply received_i2c_get_data in E3 as [E3 R0].
  apply bind_Some in E as (ok1 & w4 & E4 & E).
  apply (frame_wait_for_empty_data_reg received received_clock received_seen)
    in E4.
  destruct ok1; [|inversion E].
  apply bind_Some in E as (b1 & w5 & E5 & E).
  apply received_i2c_get_data in E5 as [E5 R1].
  inversion E; subst; clear E.
  exists b0, b1. repeat split; try lia.
  - unfold received_during.
    rewrite E5, E4, E3, E2, E1, <- app_assoc. apply during_app.
  - apply join_bytes; assumption.
Qed.

(** What a word write leaves of the bytes received. *)
Lemma received_i2c_write16_for fuel bytes : forall w ok w',
  i2c_write16_for fuel bytes w = Some (ok, w') -> received w' = received w.
Proof.
  induction bytes as [|b rest IH]; intros w ok w' E; simpl in E.
  - inversion E. reflexivity.
  - apply bind_Some in E as (ready & w1 & E1 & E).
    apply (frame_wait_transmit received received_clock received_seen) in E1.
    destruct ready; [|inversion E; subst; exact E1].
    apply bind_Some in E as (u & w2 & E2 & E).
    unfold call in E2. inversion E2; subst; clear E2.
    apply IH in E. rewrite E. exact E1.
Qed.

Lemma received_i2c_write16 fuel addr data w ok w' :
  i2c_write16 fuel addr data w = Some (ok, w') -> received w' = received w.
Proof.
  unfold i2c_write16. intros E. apply bind_Some in E as (u & w1 & E1 & E).
  apply received_i2c_write16_for in E. rewrite E.
  apply (frame_i2c_prepare received received_call _ _ _ _ _ _ E1).
Qed.

(** A byte taken from the receive register is what the environment answers
    at that moment, as a [uint8_t]; taking it sends nothing. *)
Lemma i2c_get_data_value w b w' :
  i2c_get_data w = Some (b, w') ->
  b = u8 (val (respond (trace w) RXDR)) /\ sent w' = sent w.
Proof.
  unfold i2c_get_data. intros E. apply bind_Some in E as (v & w1 & E1 & E2).
  unfold observe in E1. inversion E1; subst; clear E1.
  inversion E2; subst; clear E2. split; [reflexivity|].
  unfold sent. simpl.
  apply (frame_ticks sent sent_clock).
Qed.

Lemma millis_returns w : exists t w', millis w = Some (t, w').
Proof. unfold millis, bind, observe. eauto. Qed.

Lemma i2c_get_data_returns w : exists b w', i2c_get_data w = Some (b, w').
Proof. unfold i2c_get_data, bind, observe, ret. eauto. Qed.

(** *** A transmitter that is ready

    With TXIS set and no NACK reported at every poll, and room for one poll
    in each wait, the waits before a transmitted byte return at once and
    every write goes through. *)
Section Transmitting.
Hypothesis transmitter_ready : forall h, val (respond h TXIS) <> 0.
Hypothesis never_refused : forall h, val (respond h NACKF) = 0.

Lemma wait_for_ack_returns fuel t w :
  exists w', wait_for_ack (S fuel) t w = Some (true, w').
Proof.
  unfold wait_for_ack.
  destruct (millis_returns w) as (now & w1 & E1).
  rewrite (bind_eq _ _ _ _ _ E1). simpl.
  unfold i2c_nack, bind, observe, ret.
  rewrite never_refused. simpl. eauto.
Qed.

Lemma wait_transmit_returns fuel n w :
  exists w', wait_transmit (S fuel) (S n) w = Some (true, w').
Proof.
  cbn [wait_transmit].
  assert (T : exists w0, i2c_transmit_int_status w = Some (true, w0)).
  { unfold i2c_transmit_int_status, bind, observe, ret.
    destruct (Z.eqb_spec (val (respond (trace w) TXIS)) 0) as [Z0|_];
      [now destruct (transmitter_ready (trace w))|].
    simpl. eauto. }
  destruct T as (w0 & E0). rewrite (bind_eq _ _ _ _ _ E0).
  destruct (wait_for_ack_returns fuel (u32 I2C_TIMEOUT) w0) as (w1 & E1).
  rewrite (bind_eq _ _ _ _ _ E1). simpl. unfold ret. eauto.
Qed.

Lemma i2c_prepare_returns addr dir n w :
  exists w', i2c_prepare addr dir n w = Some (tt, w').
Proof.
  unfold i2c_prepare, bind, call. destruct (dir =? 0); simpl; eauto.
Qed.

Lemma i2c_write16_for_returns fuel bytes : forall w,
  exists w', i2c_write16_for (S fuel) bytes w = Some (true, w').
Proof.
  induction bytes as [|b rest IH]; intros w; simpl; [unfold ret; eauto|].
  destruct (wait_transmit_returns fuel fuel w) as (w1 & E1).
  rewrite (bind_eq _ _ _ _ _ E1). unfold bind at 1, call. apply IH.
Qed.

Lemma i2c_write16_returns fuel addr data w :
  exists w', i2c_write16 (S fuel) addr data w = Some (true, w').
Proof.
  unfold i2c_write16.
  destruct (i2c_prepare_returns addr (u8 I2C_WRITE_DIR) 2 w) as (w1 & E1).
  rewrite (bind_eq _ _ _ _ _ E1). apply i2c_write16_for_returns.
Qed.

Lemma i2c_write16_array_while_returns fuel n : forall high_byte data w,
  exists w',
    i2c_write16_array_while (S fuel) n high_byte data w = Some (true, w').
Proof.
  induction n as [|n IH]; intros hb data w; simpl; [unfold ret; eauto|].
  destruct (wait_transmit_returns fuel fuel w) as (w1 & E1).
  rewrite (bind_eq _ _ _ _ _ E1).
  destruct hb; unfold bind at 1, call; apply IH.
Qed.

Lemma i2c_write16_array_returns fuel addr data num_words w :
  exists w', i2c_write16_array (S fuel) addr data num_words w = Some (true, w').
Proof.
  unfold i2c_write16_array.
  destruct (i2c_prepare_returns addr (u8 I2C_WRITE_DIR)
              (u8 (2 * num_words)) w) as (w1 & E1).
  rewrite (bind_eq _ _ _ _ _ E1). apply i2c_write16_array_while_returns.
Qed.

Lemma write_register_returns fuel reg value w :
  exists w', write_register (S fuel) reg value w = Some (true, w').
Proof.
  unfold write_register.
  destruct (i2c_write16_array_returns fuel (u8 LEP_I2C_DEVICE_ADDRESS)
              [reg; value] 2 w) as (w1 & E1).
  rewrite (bind_eq _ _ _ _ _ E1). simpl. unfold ret. eauto.
Qed.

End Transmitting.

(** *** A receiver with a byte waiting *)
Section Receiving.
Hypothesis byte_waiting : forall h, val (respond h RXNE) <> 0.

Lemma i2c_received_data_ready w :
  exists w', i2c_received_data w = Some (true, w').
Proof.
  unfold i2c_received_data, bind, observe, ret.
  destruct (Z.eqb_spec (val (respond (trace w) RXNE)) 0) as [Z0|_];
    [now destruct (byte_waiting (trace w))|].
  simpl. eauto.
Qed.

Lemma wait_for_empty_data_reg_ready fuel t w :
  exists w', wait_for_empty_data_reg (S fuel) t w = Some (true, w').
Proof.
  unfold wait_for_empty_data_reg.
  destruct (millis_returns w) as (now & w1 & E1).
  rewrite (bind_eq _ _ _ _ _ E1). simpl.
  destruct (i2c_received_data_ready w1) as (w2 & E2).
  rewrite (bind_eq _ _ _ _ _ E2). simpl. exists w2. reflexivity.
Qed.

(** A word read takes two bytes and joins them. *)
Lemma i2c_read16_returns fuel addr w :
  exists high low w',
    i2c_read16 (S fuel) addr w
      = Some (Some (Z.lor (Z.shiftl high 8) low), w') /\
    received_during w w' = [high; low] /\
    (exists wh wl,
       sent wh = sent w /\ received wh = received w /\
       high = u8 (val (respond (trace wh) RXDR)) /\
       sent wl = sent w /\ received wl = received w ++ [high] /\
       low = u8 (val (respond (trace wl) RXDR))).
Proof.
  unfold i2c_read16.
  destruct (i2c_prepare_returns addr (u8 I2C_READ_DIR) 2 w) as (w1 & E1).
  rewrite (bind_eq _ _ _ _ _ E1).
  pose proof (frame_i2c_prepare sent sent_call _ _ _ _ _ _ E1) as S1.
  pose proof (frame_i2c_prepare received received_call _ _ _ _ _ _ E1) as R1.
  destruct (wait_for_empty_data_reg_ready fuel (u32 I2C_TIMEOUT) w1)
    as (w2 & E2).
  rewrite (bind_eq _ _ _ _ _ E2).
  pose proof (frame_wait_for_empty_data_reg sent sent_clock sent_seen
                _ _ _ _ _ E2) as S2.
  pose proof (frame_wait_for_empty_data_reg received received_clock
                received_seen _ _ _ _ _ E2) as R2.
  destruct (i2c_get_data_returns w2) as (b0 & w3 & E3).
  rewrite (bind_eq _ _ _ _ _ E3).
  destruct (i2c_get_data_value _ _ _ E3) as [V3 S3].
  destruct (received_i2c_get_data _ _ _ E3) as [R3 B0].
  destruct (wait_for_empty_data_reg_ready fuel (u32 I2C_TIMEOUT) w3)
    as (w4 & E4).
  rewrite (bind_eq _ _ _ _ _ E4).
  pose proof (frame_wait_for_empty_data_reg sent sent_clock sent_seen
                _ _ _ _ _ E4) as S4.
  pose proof (frame_wait_for_empty_data_reg received received_clock
                received_seen _ _ _ _ _ E4) as R4.
  destruct (i2c_get_data_returns w4) as (b1 & w5 & E5).
  rewrite (bind_eq _ _ _ _ _ E5).
  destruct (i2c_get_data_value _ _ _ E5) as [V5 S5].
  destruct (received_i2c_get_data _ _ _ E5) as [R5 B1].
  exists b0, b1, w5. split; [|split].
  - unfold ret. now rewrite (join_bytes b0 b1 B0 B1).
  - unfold received_during.
    rewrite R5, R4, R3, R2, R1, <- app_assoc. apply during_app.
  - exists w2, w4. repeat split; congruence.
Qed.

End Receiving.

(** C5. For a 16-bit value [V].  Whatever the transport does: a word
    write that returns [true] has sent two bytes, the high byte of [V] and
    then its low byte; a word read that returns a value has received two
    bytes and returns the first shifted left by eight, or-ed with the
    second; and when the bytes the read received are the bytes the write
    sent, the value read is [V].  Through a transport that is ready -- the
    transmitter free, no byte refused, a received byte waiting -- and with
    room for one poll in each wait, the write does return [true] and a read
    from any state does return a value; and when that transport is
    faithful, handing back the bytes in the order they were sent with none
    of the earlier ones left over, the read that follows the write of [V]
    returns [V]. *)
Theorem word_round_trip fuel addr fuel' addr' V w :
  0 <= V < 2 ^ 16 ->
  (forall w1,
     i2c_write16 fuel addr V w = Some (true, w1) ->
     sent_during w w1 = [Z.shiftr V 8; Z.land V 255]) /\
  (forall w2 v w3,
     i2c_read16 fuel' addr' w2 = Some (Some v, w3) ->
     (exists high low,
        received_during w2 w3 = [high; low] /\
        v = Z.lor (Z.shiftl high 8) low) /\
     (forall w1,
        i2c_write16 fuel addr V w = Some (true, w1) ->
        received_during w2 w3 = sent_during w w1 -> v = V)) /\
  ((forall h, val (respond h TXIS) <> 0) ->
   (forall h, val (respond h NACKF) = 0) ->
   (forall h, val (respond h RXNE) <> 0) ->
   (0 < fuel)%nat -> (0 < fuel')%nat ->
   exists w1,
     i2c_write16 fuel addr V w = Some (true, w1) /\
     (forall w2, exists v w3,
        i2c_read16 fuel' addr' w2 = Some (Some v, w3)) /\
     ((forall h,
         val (respond h RXDR)
         = nth (List.length (received_of h)) (sent_of h) 0) ->
      List.length (received w) = List.length (sent w) ->
      exists w3,
        i2c_read16 fuel' addr' w1 = Some (Some V, w3) /\
        received_during w1 w3 = sent_during w w1)).
Proof.
  intros R.
  assert (Sw : forall w1,
             i2c_write16 fuel addr V w = Some (true, w1) ->
             sent_during w w1 = [Z.shiftr V 8; Z.land V 255]).
  { intros w1 Ew. apply i2c_write16_sent in Ew.
    now rewrite (high_byte_of _ R), low_byte_of in Ew. }
  split; [exact Sw|]. split.
  - intros w2 v w3 Er.
    apply i2c_read16_received in Er as (hi & lo & Er & _ & _ & Ev).
    split; [eauto|].
    intros w1 Ew Same. rewrite Er, (Sw _ Ew) in Same.
    inversion Same; subst. apply split_join. exact R.
  - intros Tx Ack Rx Hf Hf'.
    destruct fuel as [|n]; [lia|]. destruct fuel' as [|n']; [lia|].
    destruct (i2c_write16_returns Tx Ack n addr V w) as (w1 & Ew).
    exists w1. split; [exact Ew|]. split.
    + intros w2.
      destruct (i2c_read16_returns Rx n' addr' w2)
        as (high & low & w3 & Er & _).
      eauto.
    + intros Echo Fresh.
      destruct (i2c_read16_returns Rx n' addr' w1)
        as (high & low & w3 & Er & Rr &
            wh & wl & Sh & Rh & Vh & Sl & Rl & Vl).
      pose proof (Sw _ Ew) as Sd.
      assert (Sent : sent w1 = sent w ++ [Z.shiftr V 8; Z.land V 255]).
      { assert (P : exists l, sent w1 = sent w ++ l).
        { pose proof Ew as Ew'. unfold i2c_write16 in Ew'.
          apply bind_Some in Ew' as (u & w0 & E0 & Ew').
          apply i2c_write16_for_sent in Ew'.
          rewrite (frame_i2c_prepare sent sent_call _ _ _ _ _ _ E0) in Ew'.
          eauto. }
        destruct P as (l & P). unfold sent_during in Sd.
        rewrite P, during_app in Sd. now rewrite P, Sd. }
      pose proof (received_i2c_write16 _ _ _ _ _ _ Ew) as Rw.
      assert (Hh : high = Z.shiftr V 8).
      { rewrite Vh, Echo. fold (received wh). fold (sent wh).
        rewrite Rh, Sh, Rw, Sent, Fresh, app_nth2, Nat.sub_diag by lia.
        simpl. apply Z.mod_small. rewrite Z.shiftr_div_pow2 by lia.
        split; [apply Z.div_pos; lia | apply Z.div_lt_upper_bound; lia]. }
      assert (Hl : low = Z.land V 255).
      { rewrite Vl, Echo. fold (received wl). fold (sent wl).
        rewrite Rl, Sl, Rw, Sent, length_app, Fresh, app_nth2
          by (simpl; lia).
        replace (List.length (sent w) + List.length [high]
                 - List.length (sent w))%nat with 1%nat by (simpl; lia).
        simpl. apply Z.mod_small. change 255 with (Z.ones 8).
        rewrite Z.land_ones by lia. apply Z.mod_pos_bound. lia. }
      exists w3. split.
      * rewrite Er, Hh, Hl. do 2 f_equal. f_equal. apply split_join. exact R.
      * now rewrite Rr, Sd, Hh, Hl.
Qed.

End WordCodec.

Lemma word_round_trip_witness :
  exists w1 w3,
    i2c_write16 (D := lepton) (H := echo) 1 0x2A 0xBEEF (@boot lepton)
      = Some (true, w1) /\
    sent_during (@boot lepton) w1 = [0xBE; 0xEF] /\
    i2c_read16 (D := lepton) (H := echo) 1 0x2A w1
      = Some (Some 0xBEEF, w3) /\
    received_during w1 w3 = [0xBE; 0xEF].
Proof.
  destruct (word_round_trip (D := lepton) (H := echo) 1 0x2A 1 0x2A 0xBEEF
              (@boot lepton))
    as (Sw & _ & Ready); [lia|].
  destruct Ready as (w1 & Ew & _ & Back);
    [ intros h; simpl; discriminate | intros h; reflexivity
    | intros h; simpl; discriminate | lia | lia |].
  destruct Back as (w3 & Er & Rr); [intros h; reflexivity | reflexivity |].
  exists w1, w3. rewrite Rr, (Sw _ Ew). repeat split; assumption.
Defined.

(** ** The loop counter of the word-array read *)

Section ReadArray.
Context `{D : defines} `{H : hardware}.

Lemma wait_for_empty_data_reg_0 t w : wait_for_empty_data_reg 0 t w = None.
Proof. reflexivity. Qed.

Lemma received_wait fuel t w ok w' :
  wait_for_empty_data_reg fuel t w = Some (ok, w') -> received w' = received w.
Proof.
  apply (frame_wait_for_empty_data_reg received received_clock received_seen).
Qed.

(** With a bound of 256 or more the loop cannot end by its condition: it
    never returns [true], whatever the environment does. *)
Lemma i2c_read16_array_for_never_true fuel n bound :
  256 <= bound ->
  forall i high low high_byte data ptr w data' w',
    0 <= i < 256 ->
    i2c_read16_array_for fuel n bound i high low high_byte data ptr w
      <> Some ((true, data'), w').
Proof.
  intros Hb. induction n as [|n IH];
    intros i high low hb data ptr w data' w' Ri E;
    simpl in E; [discriminate|].
  destruct (Z.ltb_spec i bound) as [_|Ge]; [|lia].
  apply bind_Some in E as (ok & w1 & _ & E).
  destruct ok; [|inversion E].
  destruct hb; apply bind_Some in E as (b & w2 & _ & E);
    apply IH in E; auto using u8_range.
Qed.

(** Whatever the transport does, a word count from 128 to 255 never ends in
    success: the call can only return [false], on a receive timeout. *)
Lemma i2c_read16_array_never_true fuel addr data num_words w data' w' :
  128 <= num_words <= 255 ->
  i2c_read16_array fuel addr data num_words w <> Some ((true, data'), w').
Proof.
  intros R E. unfold i2c_read16_array in E.
  apply bind_Some in E as (u & w1 & _ & E).
  apply i2c_read16_array_for_never_true in E; [assumption | lia | lia].
Qed.

(** The arrivals one by one. *)
Lemma arrive_next fuel k w r w' :
  arrive fuel (S k) w = Some (r, w') ->
  exists ok w1,
    wait_for_empty_data_reg fuel (u32 I2C_TIMEOUT) w = Some (ok, w1) /\
    (ok = false -> r = false /\ w' = w1) /\
    (ok = true ->
     exists b w2,
       i2c_get_data w1 = Some (b, w2) /\ arrive fuel k w2 = Some (r, w')).
Proof.
  cbn [arrive]. intros E. apply bind_Some in E as (ok & w1 & E1 & E).
  exists ok, w1. split; [exact E1|]. destruct ok.
  - split; [discriminate|]. intros _.
    apply bind_Some in E as (b & w2 & E2 & E). eauto.
  - split; [|discriminate]. intros _. inversion E. auto.
Qed.

Lemma arrive_received fuel k : forall w w',
  arrive fuel k w = Some (true, w') ->
  List.length (received w') = (List.length (received w) + k)%nat.
Proof.
  induction k as [|k IH]; intros w w' E.
  - inversion E. lia.
  - apply arrive_next in E as (ok & w1 & E1 & F & T).
    destruct ok; [|now destruct F].
    destruct T as (b & w2 & E2 & E); [reflexivity|].
    apply IH in E. apply received_wait in E1.
    apply received_i2c_get_data in E2 as [E2 _].
    rewrite E, E2, E1, length_app. simpl. lia.
Qed.

(** Below 256 the counter reaches the bound: when the bytes still due all
    arrive, the loop ends with [true] where the last arrival left off. *)
Lemma i2c_read16_array_for_ends fuel bound k :
  bound < 256 ->
  forall n i high low high_byte data ptr w w',
    0 <= i -> i + Z.of_nat k = bound -> (k < n)%nat ->
    arrive fuel k w = Some (true, w') ->
    exists data',
      i2c_read16_array_for fuel n bound i high low high_byte data ptr w
        = Some ((true, data'), w').
Proof.
  intros Hb. induction k as [|k IH];
    intros n i high low hb data ptr w w' Hi Hk Hn E;
    (destruct n as [|n]; [lia|]); cbn [i2c_read16_array_for].
  - destruct (Z.ltb_spec i bound) as [Lt|_]; [lia|].
    inversion E; subst. exists data. reflexivity.
  - destruct (Z.ltb_spec i bound) as [_|Ge]; [|lia].
    apply arrive_next in E as (ok & w1 & E1 & F & T).
    destruct ok; [|now destruct F].
    destruct T as (b & w2 & E2 & E); [reflexivity|].
    rewrite (bind_eq _ _ _ _ _ E1).
    assert (U : u8 (i + 1) = i + 1) by (apply Z.mod_small; lia).
    destruct hb; rewrite (bind_eq _ _ _ _ _ E2), U;
      eapply IH; try exact E; lia.
Qed.

(** From 256 on the counter stays below the bound: as long as bytes
    arrive, the loop goes on. *)
Lemma i2c_read16_array_for_runs_on fuel bound n :
  256 <= bound ->
  forall i high low high_byte data ptr w w',
    0 <= i < 256 ->
    arrive fuel n w = Some (true, w') ->
    i2c_read16_array_for fuel n bound i high low high_byte data ptr w = None.
Proof.
  intros Hb. induction n as [|n IH]; intros i high low hb data ptr w w' Ri E;
    cbn [i2c_read16_array_for]; [reflexivity|].
  destruct (Z.ltb_spec i bound) as [_|Ge]; [|lia].
  apply arrive_next in E as (ok & w1 & E1 & F & T).
  destruct ok; [|now destruct F].
  destruct T as (b & w2 & E2 & E); [reflexivity|].
  rewrite (bind_eq _ _ _ _ _ E1).
  destruct hb; rewrite (bind_eq _ _ _ _ _ E2);
    eapply IH; try exact E; apply u8_range.
Qed.

(** The other way out of the loop: at the first wait that runs into the
    bus timeout, with the counter still below the bound, the loop returns
    [false] in the state that wait left. *)
Lemma i2c_read16_array_for_gives_up fuel bound k :
  forall n i high low high_byte data ptr w w',
    0 <= i < 256 -> 256 <= bound \/ i + Z.of_nat k <= bound -> (k <= n)%nat ->
    arrive fuel k w = Some (false, w') ->
    exists data',
      i2c_read16_array_for fuel n bound i high low high_byte data ptr w
        = Some ((false, data'), w').
Proof.
  induction k as [|k IH]; intros n i high low hb data ptr w w' Ri Hk Hn E;
    [discriminate|].
  destruct n as [|n]; [lia|]. cbn [i2c_read16_array_for].
  destruct (Z.ltb_spec i bound) as [_|Ge]; [|lia].
  apply arrive_next in E as (ok & w1 & E1 & F & T).
  rewrite (bind_eq _ _ _ _ _ E1). destruct ok.
  - destruct T as (b & w2 & E2 & E); [reflexivity|].
    assert (Hk' : 256 <= bound \/ u8 (i + 1) + Z.of_nat k <= bound).
    { destruct (Z.le_gt_cases 256 bound) as [Big|Small]; [now left|].
      right. unfold u8. rewrite Z.mod_small; lia. }
    destruct hb; rewrite (bind_eq _ _ _ _ _ E2);
      eapply IH; try exact E; try exact Hk'; try lia; apply u8_range.
  - destruct F as [_ ->]; [reflexivity|]. exists data. reflexivity.
Qed.

(** C9, as the code has it.  The call programs a transfer of
    [2 * num_words] modulo 256 bytes and runs its loop against the full
    [2 * num_words].  For a word count up to 127, when the [2 * num_words]
    bytes all arrive in time, the call returns success where the last
    arrival left off, having taken exactly [2 * num_words] bytes.  For a
    word count from 128 to 255 the [uint8_t] counter stays below the bound:
    as long as bytes arrive the call does not return, however many
    iterations it is given, and it never returns success.  For every word
    count the call returns [false] at the first wait for a byte that runs
    into the bus timeout, in the state that wait left. *)
Theorem i2c_read16_array_counter fuel addr data num_words w :
  let prepared :=
    i2c_prepare addr (u8 I2C_READ_DIR) ((2 * num_words) mod 256) in
  let result := i2c_read16_array fuel addr data num_words w in
  (exists w1,
     prepared w = Some (tt, w1) /\
     In (Call (i2c_set_bytes_to_transfer ((2 * num_words) mod 256)))
        (trace w1) /\
     result
     = i2c_read16_array_for fuel fuel (2 * num_words) 0 0 0 true data O w1) /\
  (0 <= num_words <= 127 ->
   (2 * Z.to_nat num_words < fuel)%nat ->
   forall w',
     (prepared ;; arrive fuel (2 * Z.to_nat num_words)) w = Some (true, w') ->
     (exists data', result = Some ((true, data'), w')) /\
     List.length (received_during w w') = (2 * Z.to_nat num_words)%nat) /\
  (128 <= num_words <= 255 ->
   forall w',
     (prepared ;; arrive fuel fuel) w = Some (true, w') -> result = None) /\
  (128 <= num_words <= 255 ->
   forall ok data' w', result = Some ((ok, data'), w') -> ok = false) /\
  (0 <= num_words <= 255 ->
   forall k w',
     (k <= fuel)%nat ->
     (num_words <= 127 -> (k <= 2 * Z.to_nat num_words)%nat) ->
     (prepared ;; arrive fuel k) w = Some (false, w') ->
     exists data', result = Some ((false, data'), w')).
Proof.
  intros prepared result.
  destruct (i2c_prepare_returns addr (u8 I2C_READ_DIR)
              ((2 * num_words) mod 256) w) as (w1 & P1).
  fold prepared in P1.
  assert (P2 : In (Call (i2c_set_bytes_to_transfer ((2 * num_words) mod 256)))
                  (trace w1)).
  { unfold prepared, i2c_prepare, bind, call in P1.
    destruct (u8 I2C_READ_DIR =? 0); simpl in P1;
      inversion P1; simpl; auto. }
  pose proof (frame_i2c_prepare received received_call _ _ _ _ _ _ P1) as P3.
  assert (Q : result
              = i2c_read16_array_for fuel fuel (2 * num_words) 0 0 0 true data
                  O w1).
  { unfold result, i2c_read16_array. unfold u8 at 2.
    change (2 ^ 8) with 256. fold prepared.
    now rewrite (bind_eq _ _ _ _ _ P1). }
  split; [exists w1; auto|]. rewrite Q.
  split; [|split; [|split]].
  - intros R Hf w' E. rewrite (bind_eq _ _ _ _ _ P1) in E. split.
    + eapply i2c_read16_array_for_ends; try exact E; lia.
    + apply arrive_received in E.
      unfold received_during. rewrite length_skipn, E, P3. lia.
  - intros R w' E. rewrite (bind_eq _ _ _ _ _ P1) in E.
    eapply i2c_read16_array_for_runs_on; try exact E; lia.
  - intros R [|] data' w' E; [|reflexivity].
    apply i2c_read16_array_for_never_true in E; [contradiction | lia | lia].
  - intros R k w' Hk Hs E. rewrite (bind_eq _ _ _ _ _ P1) in E.
    eapply i2c_read16_array_for_gives_up; try exact E; lia.
Qed.

End ReadArray.

Lemma i2c_read16_array_counter_witness :
  (exists data' w',
     i2c_read16_array (D := lepton) (H := trickle 6 7) 9 0x2A [0; 0; 0] 3
       (@boot lepton) = Some ((true, data'), w') /\
     List.length (received_during (@boot lepton) w') = 6%nat) /\
  i2c_read16_array (D := lepton) (H := steady 7) 9 0x2A
    (repeat 0 128) 128 (@boot lepton) = None /\
  (exists data' w',
     i2c_read16_array (D := lepton) (H := trickle 2 7) 20 0x2A [0; 0; 0] 3
       (@boot lepton) = Some ((false, data'), w') /\
     received_during (@boot lepton) w' = [7; 7]).
Proof.
  split; [|split].
  - destruct (i2c_read16_array_counter (D := lepton) (H := trickle 6 7)
                9 0x2A [0; 0; 0] 3 (@boot lepton)) as (_ & T & _).
    destruct (T ltac:(lia) ltac:(simpl; lia)
                (state_after
                   (i2c_read16_array (D := lepton) (H := trickle 6 7)
                      9 0x2A [0; 0; 0] 3) (@boot lepton)))
      as ((data' & E) & L); [vm_compute; reflexivity|].
    exists data'. eexists. split; [exact E | exact L].
  - destruct (i2c_read16_array_counter (D := lepton) (H := steady 7)
                9 0x2A (repeat 0 128) 128 (@boot lepton))
      as (_ & _ & N & _).
    apply (N ltac:(lia)
             (state_after (arrive (D := lepton) (H := steady 7) 9 9)
                (state_after (i2c_prepare 0x2A 0 0) (@boot lepton)))).
    vm_compute. reflexivity.
  - destruct (i2c_read16_array_counter (D := lepton) (H := trickle 2 7)
                20 0x2A [0; 0; 0] 3 (@boot lepton)) as (_ & _ & _ & _ & F).
    destruct (F ltac:(lia) 3%nat
                (state_after
                   (i2c_read16_array (D := lepton) (H := trickle 2 7)
                      20 0x2A [0; 0; 0] 3) (@boot lepton)))
      as (data' & E); [lia | simpl; lia | vm_compute; reflexivity|].
    exists data'. eexists. split; [exact E | vm_compute; reflexivity].
Defined.

(** C9, as stated, fails: a word count of 128 against a silent device.
    Zero bytes are announced to the peripheral, the first wait for a byte
    runs into the bus timeout, and the call returns [false]: the loop has
    ended. *)
Lemma i2c_read16_array_128_returns :
  exists w',
    i2c_read16_array (D := lepton)
      (H := fun _ p => match p with SYSTICK => Reply 1 0 | _ => Reply 0 0 end)
      20 0x2A (repeat 0 128) 128 (@boot lepton)
    = Some ((false, repeat 0 128), w') /\
    In (Call (i2c_set_bytes_to_transfer 0)) (trace w').
Proof.
  eexists. split; [vm_compute; reflexivity|].
  simpl. repeat first [left; reflexivity | right].
Qed.

(** ** The command code *)

Section CommandCode.
Context `{D : defines}.

Ltac bitwise :=
  repeat match goal with
         | |- context [Z.testbit ?a ?n] =>
             lazymatch a with
             | Z.land _ _ => fail
             | Z.lor _ _ => fail
             | _ => destruct (Z.testbit a n)
             end
         end.

(** C8. [command_code] is a function of its two arguments alone.  When the
    three masks are 16-bit values and the type mask shares no bit with the
    module-id and command-id masks, the bits of the result under the type
    mask are those of [cmd_type] under that mask, and the bits under the
    module-id and command-id masks are those of [cmd_id], whatever
    [cmd_type] is. *)
Theorem command_code_fields cmd_id cmd_type :
  0 <= LEP_I2C_COMMAND_MODULE_ID_BIT_MASK < 2 ^ 16 ->
  0 <= LEP_I2C_COMMAND_ID_BIT_MASK < 2 ^ 16 ->
  0 <= LEP_I2C_COMMAND_TYPE_BIT_MASK < 2 ^ 16 ->
  Z.land (Z.lor LEP_I2C_COMMAND_MODULE_ID_BIT_MASK LEP_I2C_COMMAND_ID_BIT_MASK)
         LEP_I2C_COMMAND_TYPE_BIT_MASK = 0 ->
  (forall id' type', id' = cmd_id -> type' = cmd_type ->
     command_code id' type' = command_code cmd_id cmd_type) /\
  Z.land (command_code cmd_id cmd_type) LEP_I2C_COMMAND_TYPE_BIT_MASK
    = Z.land cmd_type LEP_I2C_COMMAND_TYPE_BIT_MASK /\
  Z.land (command_code cmd_id cmd_type)
         (Z.lor LEP_I2C_COMMAND_MODULE_ID_BIT_MASK LEP_I2C_COMMAND_ID_BIT_MASK)
    = Z.land cmd_id
        (Z.lor LEP_I2C_COMMAND_MODULE_ID_BIT_MASK
               LEP_I2C_COMMAND_ID_BIT_MASK) /\
  (forall type',
     Z.land (command_code cmd_id type')
        (Z.lor LEP_I2C_COMMAND_MODULE_ID_BIT_MASK LEP_I2C_COMMAND_ID_BIT_MASK)
     = Z.land (command_code cmd_id cmd_type)
        (Z.lor LEP_I2C_COMMAND_MODULE_ID_BIT_MASK LEP_I2C_COMMAND_ID_BIT_MASK)).
Proof.
  intros Rm Ri Rt Hdisj.
  apply fits_16 in Rm, Ri, Rt.
  assert (Bm : forall n, Z.testbit LEP_I2C_COMMAND_MODULE_ID_BIT_MASK n
                         && Z.testbit (Z.ones 16) n
                         = Z.testbit LEP_I2C_COMMAND_MODULE_ID_BIT_MASK n).
  { intros n. rewrite <- Z.land_spec, Rm. reflexivity. }
  assert (Bi : forall n, Z.testbit LEP_I2C_COMMAND_ID_BIT_MASK n
                         && Z.testbit (Z.ones 16) n
                         = Z.testbit LEP_I2C_COMMAND_ID_BIT_MASK n).
  { intros n. rewrite <- Z.land_spec, Ri. reflexivity. }
  assert (Bt : forall n, Z.testbit LEP_I2C_COMMAND_TYPE_BIT_MASK n
                         && Z.testbit (Z.ones 16) n
                         = Z.testbit LEP_I2C_COMMAND_TYPE_BIT_MASK n).
  { intros n. rewrite <- Z.land_spec, Rt. reflexivity. }
  assert (Bd : forall n,
             (Z.testbit LEP_I2C_COMMAND_MODULE_ID_BIT_MASK n
              || Z.testbit LEP_I2C_COMMAND_ID_BIT_MASK n)
             && Z.testbit LEP_I2C_COMMAND_TYPE_BIT_MASK n = false).
  { intros n. rewrite <- Z.lor_spec, <- Z.land_spec, Hdisj.
    apply Z.bits_0. }
  assert (Fields : forall ty,
    Z.land (command_code cmd_id ty) LEP_I2C_COMMAND_TYPE_BIT_MASK
      = Z.land ty LEP_I2C_COMMAND_TYPE_BIT_MASK /\
    Z.land (command_code cmd_id ty)
      (Z.lor LEP_I2C_COMMAND_MODULE_ID_BIT_MASK LEP_I2C_COMMAND_ID_BIT_MASK)
      = Z.land cmd_id
          (Z.lor LEP_I2C_COMMAND_MODULE_ID_BIT_MASK
                 LEP_I2C_COMMAND_ID_BIT_MASK)).
  { intros ty. unfold command_code. rewrite u16_land. split.
    - apply Z.bits_inj'. intros n _.
      repeat rewrite ?Z.land_spec, ?Z.lor_spec.
      specialize (Bm n); specialize (Bi n); specialize (Bt n);
        specialize (Bd n).
      revert Bm Bi Bt Bd. bitwise; simpl; congruence.
    - apply Z.bits_inj'. intros n _.
      repeat rewrite ?Z.land_spec, ?Z.lor_spec.
      specialize (Bm n); specialize (Bi n); specialize (Bt n);
        specialize (Bd n).
      revert Bm Bi Bt Bd. bitwise; simpl; congruence. }
  split; [intros ? ? -> ->; reflexivity|].
  split; [apply Fields|]. split; [apply Fields|].
  intros ty. rewrite (proj2 (Fields ty)), (proj2 (Fields cmd_type)).
  reflexivity.
Qed.

End CommandCode.

Lemma command_code_fields_witness :
  Z.land (command_code (D := lepton) 0x0204 0x0001) 0x0003 = 0x0001 /\
  Z.land (command_code (D := lepton) 0x0204 0x0001) 0x0FFC = 0x0204.
Proof.
  destruct (command_code_fields (D := lepton) 0x0204 0x0001)
    as (_ & T & I & _).
  - simpl; lia.
  - simpl; lia.
  - simpl; lia.
  - reflexivity.
  - split; [exact T | exact I].
Defined.

(** ** The busy wait and the last-error slot *)

Section BusyWait.
Context `{D : defines} `{H : hardware}.

(** C4. When the first read of STATUS shows the busy bit clear,
    [wait_busy_bit] returns success in the very state that read left
    behind, changed only in the last-error slot: no sleep, no further read,
    no time spent.  The slot then holds the error-code field of that status
    word, masked, shifted and narrowed to eight bits, and
    [get_last_flir_result] returns it; the value of the code plays no part
    in the result of the wait. *)
Theorem wait_busy_bit_ready_at_once fuel timeout w status w1 :
  read_register fuel LEP_I2C_STATUS_REG w = Some (Some status, w1) ->
  Z.land status LEP_I2C_STATUS_BUSY_BIT_MASK = 0 ->
  exists w',
    wait_busy_bit fuel timeout w = Some (true, w') /\
    w' = set_last_flir_error (error_code status) w1 /\
    trace w' = trace w1 /\ _millis w' = _millis w1 /\
    console w' = console w1 /\
    get_last_flir_result w' =
      u8 (Z.shiftr (Z.land status LEP_I2C_STATUS_ERROR_CODE_BIT_MASK)
                   LEP_I2C_STATUS_ERROR_CODE_BIT_SHIFT).
Proof.
  intros Hread Hclear. eexists. split; [|repeat split].
  unfold wait_busy_bit. rewrite (bind_eq _ _ _ _ _ Hread).
  unfold busy. rewrite Hclear. reflexivity.
Qed.

(** C10. A wait that returns failure -- the first read failed, a read
    inside the loop failed, or the busy bit outlived the timeout -- leaves
    the last-error slot as it was, so [get_last_flir_result] still returns
    what the last successful wait latched; after a failed first wait of the
    program that is [LEP_OK]. *)
Theorem wait_busy_bit_failure_keeps_error fuel timeout w w' :
  wait_busy_bit fuel timeout w = Some (false, w') ->
  last_flir_error w' = last_flir_error w /\
  get_last_flir_result w' = get_last_flir_result w /\
  (w = boot -> get_last_flir_result w' = u8 LEP_OK).
Proof.
  intros E.
  assert (K : last_flir_error w' = last_flir_error w).
  { unfold wait_busy_bit in E.
    apply bind_Some in E as ([status|] & w1 & E1 & E).
    - assert (K1 : last_flir_error w1 = last_flir_error w)
        by keeps_error @keep_read_register.
      destruct (busy status); simpl in E.
      + apply bind_Some in E as (now & w2 & E2 & E).
        assert (K2 : last_flir_error w2 = last_flir_error w1)
          by keeps_error @keep_flir_millis.
        apply bind_Some in E as (r & w3 & E3 & E).
        assert (K3 : last_flir_error w3 = last_flir_error w2)
          by keeps_error @keep_wait_busy_bit_while.
        destruct r as [status'|].
        * destruct (busy status'); simpl in E.
          -- inversion E; subst. simpl. congruence.
          -- inversion E.
        * inversion E; subst. congruence.
      + inversion E.
    - inversion E; subst.
      keeps_error @keep_read_register. }
  repeat split; try exact K.
  intros ->. unfold get_last_flir_result. rewrite K. reflexivity.
Qed.

End BusyWait.

Lemma wait_busy_bit_ready_at_once_witness :
  exists w',
    wait_busy_bit (D := lepton) (H := feeds [3; 0]) 4 50 (@boot lepton)
      = Some (true, w') /\
    get_last_flir_result w' = 3.
Proof.
  edestruct (wait_busy_bit_ready_at_once (D := lepton) (H := feeds [3; 0])
               4 50 (@boot lepton) 768) as (w' & E & _ & _ & _ & _ & R).
  - vm_compute. reflexivity.
  - reflexivity.
  - exists w'. split; [exact E | exact R].
Defined.

Lemma wait_busy_bit_failure_keeps_error_witness :
  exists w',
    wait_busy_bit (D := lepton) (H := steady 1) 4 0 (@boot lepton)
      = Some (false, w') /\
    get_last_flir_result w' = 0.
Proof.
  eexists. split.
  - vm_compute. reflexivity.
  - eapply (wait_busy_bit_failure_keeps_error (D := lepton) (H := steady 1)
              4 0 (@boot lepton)).
    + vm_compute. reflexivity.
    + reflexivity.
Defined.

(** ** Failures of the busy wait *)

Section WaitFailures.
Context `{D : defines} `{H : hardware}.

Lemma console_clock t w : console (set_millis t w) = console w.
Proof. reflexivity. Qed.
Lemma console_log e w : console (log e w) = console w.
Proof. reflexivity. Qed.

(** The loop gives up only on a failed read, and in the state that read
    left behind. *)
Lemma wait_busy_bit_while_stops_at_read fuel n end_time :
  forall status w w',
    wait_busy_bit_while fuel n end_time status w = Some (None, w') ->
    exists wr, read_register fuel LEP_I2C_STATUS_REG wr = Some (None, w').
Proof.
  induction n as [|n IH]; intros status w w' E; simpl in E; [discriminate|].
  destruct (busy status); [|inversion E].
  apply bind_Some in E as (now & w1 & _ & E).
  destruct (now <? end_time); [|inversion E].
  apply bind_Some in E as (u & w2 & _ & E).
  apply bind_Some in E as (r & w3 & E3 & E).
  destruct r as [status'|].
  - eapply IH. exact E.
  - inversion E; subst. eauto.
Qed.

(** Rounds that go through are rounds of the loop. *)
Lemma polling_runs fuel end_time k status w status' w' :
  polling fuel end_time k status w status' w' ->
  forall n,
    wait_busy_bit_while fuel (k + n) end_time status w
    = wait_busy_bit_while fuel n end_time status' w'.
Proof.
  induction 1 as [|k status w now w1 w2 status1 w3 status' w' B E1 Lt E2 E3
                    _ IH]; intros n; [reflexivity|].
  cbn [Nat.add wait_busy_bit_while]. rewrite B, (bind_eq _ _ _ _ _ E1).
  destruct (Z.ltb_spec now end_time) as [_|Ge]; [|lia].
  rewrite (bind_eq _ _ _ _ _ E2), (bind_eq _ _ _ _ _ E3). apply IH.
Qed.

(** The round in which the read fails ends the loop there and then. *)
Lemma wait_busy_bit_while_read_fails fuel n end_time status w now w1 w2 w3 :
  busy status = true ->
  flir_millis w = Some (now, w1) ->
  now < end_time ->
  flir_delay fuel 1 w1 = Some (tt, w2) ->
  read_register fuel LEP_I2C_STATUS_REG w2 = Some (None, w3) ->
  wait_busy_bit_while fuel (S n) end_time status w = Some (None, w3).
Proof.
  intros B E1 Lt E2 E3.
  cbn [wait_busy_bit_while]. rewrite B, (bind_eq _ _ _ _ _ E1).
  destruct (Z.ltb_spec now end_time) as [_|Ge]; [|lia].
  now rewrite (bind_eq _ _ _ _ _ E2), (bind_eq _ _ _ _ _ E3).
Qed.

(** The round that finds the deadline reached ends the loop with the busy
    status it had. *)
Lemma wait_busy_bit_while_deadline fuel n end_time status w now w1 :
  busy status = true ->
  flir_millis w = Some (now, w1) ->
  end_time <= now ->
  wait_busy_bit_while fuel (S n) end_time status w = Some (Some status, w1).
Proof.
  intros B E1 Ge.
  cbn [wait_busy_bit_while]. rewrite B, (bind_eq _ _ _ _ _ E1).
  destruct (Z.ltb_spec now end_time) as [Lt|_]; [lia | reflexivity].
Qed.

(** C6, as the code has it.  The first read has shown the device busy, the
    deadline has been computed, and some rounds of the polling loop have
    gone through with the device still busy.  If in the next round the
    read of STATUS fails, the wait returns [false] at once, in the state
    that read left and with nothing printed.  If instead the next round
    finds the deadline reached, the wait prints "Fail 3" and returns
    [false].  In both cases the caller holds the same thing: [false] and an
    unchanged last-error slot. *)
Theorem wait_busy_bit_failures_look_alike fuel timeout w status w1 now w2
    k status' w3 now' w4 :
  let end_time := u32 (now + u32 timeout) in
  read_register fuel LEP_I2C_STATUS_REG w = Some (Some status, w1) ->
  busy status = true ->
  flir_millis w1 = Some (now, w2) ->
  polling fuel end_time k status w2 status' w3 ->
  (k < fuel)%nat ->
  busy status' = true ->
  flir_millis w3 = Some (now', w4) ->
  (now' < end_time ->
   forall w5 w6,
     flir_delay fuel 1 w4 = Some (tt, w5) ->
     read_register fuel LEP_I2C_STATUS_REG w5 = Some (None, w6) ->
     wait_busy_bit fuel timeout w = Some (false, w6) /\
     console w6 = console w /\
     caller_view (wait_busy_bit fuel timeout w)
     = Some (false, get_last_flir_result w)) /\
  (end_time <= now' ->
   wait_busy_bit fuel timeout w = Some (false, print Fail_3 w4) /\
   console (print Fail_3 w4) = Fail_3 :: console w /\
   caller_view (wait_busy_bit fuel timeout w)
   = Some (false, get_last_flir_result w)).
Proof.
  intros end_time E1 B E2 P Hk B' E3.
  assert (W : forall r wl,
             wait_busy_bit_while fuel fuel end_time status w2 = Some (r, wl) ->
             console wl = console w /\
             last_flir_error wl = last_flir_error w /\
             wait_busy_bit fuel timeout w =
             match r with
             | None => Some (false, wl)
             | Some status'' =>
                 if negb (busy status'')
                 then Some (true,
                            set_last_flir_error (error_code status'') wl)
                 else Some (false, print Fail_3 wl)
             end).
  { intros r wl L. split; [|split].
    - rewrite (keep_wait_busy_bit_while console console_clock console_log
                 _ _ _ _ _ _ _ L).
      rewrite (keep_flir_millis console console_clock console_log _ _ _ E2).
      apply (keep_read_register console console_clock console_log
               _ _ _ _ _ E1).
    - transitivity (last_flir_error w2);
        [keeps_error @keep_wait_busy_bit_while|].
      transitivity (last_flir_error w1); [keeps_error @keep_flir_millis|].
      keeps_error @keep_read_register.
    - unfold wait_busy_bit. rewrite (bind_eq _ _ _ _ _ E1), B. simpl.
      rewrite (bind_eq _ _ _ _ _ E2). fold end_time.
      rewrite (bind_eq _ _ _ _ _ L).
      destruct r as [status''|]; [|reflexivity].
      destruct (busy status''); reflexivity. }
  assert (F : forall r wl,
             wait_busy_bit_while fuel (S (fuel - S k)) end_time status' w3
             = Some (r, wl) ->
             wait_busy_bit_while fuel fuel end_time status w2 = Some (r, wl)).
  { intros r wl L. rewrite <- (polling_runs _ _ _ _ _ _ _ P) in L.
    now replace (k + S (fuel - S k))%nat with fuel in L by lia. }
  split.
  - intros Lt w5 w6 E4 E5.
    destruct (W None w6) as (C & L & R).
    { apply F. eapply wait_busy_bit_while_read_fails; eassumption. }
    split; [exact R|]. split; [exact C|].
    rewrite R. simpl. unfold get_last_flir_result. now rewrite L.
  - intros Ge.
    destruct (W (Some status') w4) as (C & L & R).
    { apply F. eapply wait_busy_bit_while_deadline; eassumption. }
    rewrite B' in R. simpl in R.
    split; [exact R|]. split; [simpl; now rewrite C|].
    rewrite R. simpl. unfold get_last_flir_result. simpl. now rewrite L.
Qed.

End WaitFailures.

Lemma wait_busy_bit_failures_look_alike_witness :
  (exists w6,
     wait_busy_bit (D := lepton) (H := replay (bus_failure_after 1) quiet)
       4 5 (@boot lepton) = Some (false, w6) /\
     console w6 = []) /\
  (exists w4,
     wait_busy_bit (D := lepton) (H := replay (busy_for 2) quiet)
       4 2 (@boot lepton) = Some (false, w4) /\
     console w4 = [Fail_3]).
Proof.
  split.
  - edestruct (wait_busy_bit_failures_look_alike (D := lepton)
                 (H := replay (bus_failure_after 1) quiet) 4 5 (@boot lepton))
      as (F & _).
    + vm_compute. reflexivity.
    + reflexivity.
    + vm_compute. reflexivity.
    + eapply polling_round;
        [ reflexivity | vm_compute; reflexivity | reflexivity
        | vm_compute; reflexivity | vm_compute; reflexivity
        | apply polling_done ].
    + lia.
    + reflexivity.
    + vm_compute. reflexivity.
    + edestruct F as (E & C & _);
        [reflexivity | vm_compute; reflexivity | vm_compute; reflexivity|].
      eexists. split; [exact E | exact C].
  - edestruct (wait_busy_bit_failures_look_alike (D := lepton)
                 (H := replay (busy_for 2) quiet) 4 2 (@boot lepton))
      as (_ & T).
    + vm_compute. reflexivity.
    + reflexivity.
    + vm_compute. reflexivity.
    + eapply polling_round;
        [ reflexivity | vm_compute; reflexivity | reflexivity
        | vm_compute; reflexivity | vm_compute; reflexivity
        | eapply polling_round;
            [ reflexivity | vm_compute; reflexivity | reflexivity
            | vm_compute; reflexivity | vm_compute; reflexivity
            | apply polling_done ] ].
    + lia.
    + reflexivity.
    + vm_compute. reflexivity.
    + destruct T as (E & C & _); [vm_compute; discriminate|].
      eexists. split; [exact E | exact C].
Defined.

(** C6, as stated, fails: the same call, once against a device whose
    second STATUS read fails on the bus and once against a device that
    stays busy until the timeout, leaves the caller with the same result
    and the same last error; only the console differs. *)
Lemma read_failure_indistinguishable_from_timeout :
  (exists w1 wA,
     read_register (D := lepton) (H := replay bus_failure quiet) 4 2
       (@boot lepton) = Some (Some 0x0101, w1) /\
     wait_busy_bit (D := lepton) (H := replay bus_failure quiet) 4 1
       (@boot lepton) = Some (false, wA) /\
     console wA = []) /\
  (exists wB,
     wait_busy_bit (D := lepton) (H := replay (busy_for 1) quiet) 4 1
       (@boot lepton) = Some (false, wB) /\
     console wB = [Fail_3]) /\
  caller_view (wait_busy_bit (D := lepton) (H := replay bus_failure quiet) 4 1
                 (@boot lepton))
  = caller_view (wait_busy_bit (D := lepton) (H := replay (busy_for 1) quiet)
                   4 1 (@boot lepton)).
Proof.
  split; [|split].
  - eexists. eexists. split; [vm_compute; reflexivity|].
    split; vm_compute; reflexivity.
  - eexists. split; vm_compute; reflexivity.
  - vm_compute. reflexivity.
Qed.

(** ** The timeout of the busy wait *)

Section Timeout.
Context `{D : defines} `{H : hardware}.
Variables (fuel : nat) (deadline : Z).

(** [polling] holds of the states in which the loop of [wait_busy_bit]
    tests its condition.  In such a state the clock is read without time
    passing; and before the deadline, the sleep that follows takes exactly
    one millisecond and the read of STATUS after it takes none and returns
    a word with the busy bit set. *)
Variable polling : world -> Prop.
Hypothesis round :
  forall w, polling w ->
    exists w1,
      flir_millis w = Some (u32 (_millis w), w1) /\ _millis w1 = _millis w /\
      (_millis w < deadline ->
       exists w2 status w3,
         flir_delay fuel 1 w1 = Some (tt, w2) /\
         _millis w2 = _millis w + 1 /\
         read_register fuel LEP_I2C_STATUS_REG w2 = Some (Some status, w3) /\
         busy status = true /\
         _millis w3 = _millis w2 /\
         polling w3).

Lemma wait_busy_bit_while_busy rounds :
  forall n status w,
    polling w -> busy status = true ->
    0 <= _millis w -> _millis w + Z.of_nat rounds = deadline ->
    deadline < 2 ^ 32 -> (rounds < n)%nat ->
    exists status' w',
      wait_busy_bit_while fuel n deadline status w = Some (Some status', w') /\
      busy status' = true /\ _millis w' = deadline.
Proof.
  induction rounds as [|rounds IH]; intros n status w P B T0 Td Tw Hn;
    (destruct n as [|n]; [lia|]); simpl; rewrite B;
    destruct (round w P) as (w1 & E1 & T1 & Next);
    rewrite (bind_eq _ _ _ _ _ E1);
    assert (U : u32 (_millis w) = _millis w) by (apply Z.mod_small; lia);
    rewrite U.
  - destruct (Z.ltb_spec (_millis w) deadline) as [Lt|_]; [lia|].
    exists status, w1. repeat split; [assumption | lia].
  - destruct (Z.ltb_spec (_millis w) deadline) as [Lt|Ge]; [|lia].
    destruct (Next Lt) as (w2 & status' & w3 & E2 & T2 & E3 & B' & T3 & P').
    rewrite (bind_eq _ _ _ _ _ E2), (bind_eq _ _ _ _ _ E3).
    apply IH; try assumption; lia.
Qed.

End Timeout.

Section TimeoutBounds.
Context `{D : defines} `{H : hardware}.

(** The timeout while the 32-bit deadline does not wrap.  Let the first
    read of STATUS show the device busy, let the clock read [t0] when the
    deadline is computed, and let [t0 + timeout] fit in 32 bits.  If from
    then on every read of STATUS returns at once with the busy bit set and
    every sleep of the loop takes one millisecond of the clock, then
    [wait_busy_bit] returns failure when the clock reads [t0 + timeout]:
    no earlier than [timeout] milliseconds after the deadline was computed
    and no later than one millisecond more. *)
Theorem wait_busy_bit_times_out fuel timeout (polling : world -> Prop)
    w status w1 w2 :
  0 <= timeout < 2 ^ 16 ->
  (Z.to_nat timeout < fuel)%nat ->
  read_register fuel LEP_I2C_STATUS_REG w = Some (Some status, w1) ->
  busy status = true ->
  flir_millis w1 = Some (u32 (_millis w2), w2) ->
  0 <= _millis w2 ->
  _millis w2 + timeout < 2 ^ 32 ->
  polling w2 ->
  (forall w, polling w ->
     exists w1,
       flir_millis w = Some (u32 (_millis w), w1) /\ _millis w1 = _millis w /\
       (_millis w < _millis w2 + timeout ->
        exists w2 status w3,
          flir_delay fuel 1 w1 = Some (tt, w2) /\
          _millis w2 = _millis w + 1 /\
          read_register fuel LEP_I2C_STATUS_REG w2 = Some (Some status, w3) /\
          busy status = true /\
          _millis w3 = _millis w2 /\
          polling w3)) ->
  exists w',
    wait_busy_bit fuel timeout w = Some (false, w') /\
    _millis w' = _millis w2 + timeout /\
    _millis w2 + timeout <= _millis w' <= _millis w2 + timeout + 1.
Proof.
  intros Rt Hf E1 B E2 T0 Tw P Round.
  destruct (wait_busy_bit_while_busy fuel (_millis w2 + timeout) polling Round
              (Z.to_nat timeout) fuel status w2)
    as (status' & w' & E3 & B' & T'); try assumption; try lia.
  exists (print Fail_3 w'). split.
  - unfold wait_busy_bit. rewrite (bind_eq _ _ _ _ _ E1), B. simpl.
    rewrite (bind_eq _ _ _ _ _ E2).
    replace (u32 (u32 (_millis w2) + u32 timeout))
      with (_millis w2 + timeout).
    + rewrite (bind_eq _ _ _ _ _ E3), B'. reflexivity.
    + unfold u32. rewrite (Z.mod_small (_millis w2)) by lia.
      rewrite (Z.mod_small timeout) by lia.
      rewrite Z.mod_small by lia. reflexivity.
  - simpl. lia.
Qed.

End TimeoutBounds.

Lemma wait_busy_bit_times_out_witness :
  exists w',
    wait_busy_bit (D := lepton) (H := demo_hw) 4 2 (@boot lepton)
      = Some (false, w') /\
    _millis w' = 2.
Proof.
  edestruct (wait_busy_bit_times_out (D := lepton) (H := demo_hw) 4 2
               (fun w => w = demo_poll 0 \/ w = demo_poll 1 \/ w = demo_poll 2)
               (@boot lepton) 0x0101
               (state_after (read_register (D := lepton) (H := demo_hw) 4 2)
                  (@boot lepton))
               (demo_poll 0)) as (w' & E & T & _).
  - lia.
  - simpl. lia.
  - vm_compute. reflexivity.
  - reflexivity.
  - vm_compute. reflexivity.
  - vm_compute. discriminate.
  - vm_compute. reflexivity.
  - left. reflexivity.
  - intros w [ -> | [ -> | -> ] ].
    + eexists. split; [vm_compute; reflexivity|].
      split; [vm_compute; reflexivity|]. intros _.
      eexists. eexists. eexists.
      split; [vm_compute; reflexivity|]. split; [vm_compute; reflexivity|].
      split; [vm_compute; reflexivity|]. split; [reflexivity|].
      split; [vm_compute; reflexivity|]. right. left. vm_compute. reflexivity.
    + eexists. split; [vm_compute; reflexivity|].
      split; [vm_compute; reflexivity|]. intros _.
      eexists. eexists. eexists.
      split; [vm_compute; reflexivity|]. split; [vm_compute; reflexivity|].
      split; [vm_compute; reflexivity|]. split; [reflexivity|].
      split; [vm_compute; reflexivity|]. right. right. vm_compute. reflexivity.
    + eexists. split; [vm_compute; reflexivity|].
      split; [vm_compute; reflexivity|]. intros Lt.
      vm_compute in Lt. discriminate.
  - exists w'. split; [exact E | rewrite T; vm_compute; reflexivity].
Defined.

(** The scenario of the specification: busy for good, a timeout of 50 ms,
    the clock started at zero.  The wait fails when the clock reads 50. *)
Example wait_busy_bit_50ms :
  exists w',
    wait_busy_bit (D := lepton) (H := replay (busy_for 50) quiet) 60 50
      (@boot lepton) = Some (false, w') /\
    _millis w' = 50 /\ console w' = [Fail_3].
Proof. eexists. split; [vm_compute; reflexivity|]. split; reflexivity. Qed.

(** C3.  If every read of STATUS shows the device busy, [wait_busy_bit]
    is to return failure no earlier than [timeout] milliseconds after it
    computed its deadline.  The code computes the deadline from the 64-bit
    clock narrowed to 32 bits: with the clock at [2^32 - 10] and a timeout
    of 50 ms the deadline wraps to 40, the loop is not entered, and the
    wait reports failure with the clock still at [2^32 - 10], although the
    one read of STATUS it made showed the device busy. *)
Lemma wait_busy_bit_deadline_wraps :
  exists w',
    wait_busy_bit (D := lepton) (H := replay (busy_for 50) quiet) 60 50
      (World (2 ^ 32 - 10) 0 [] []) = Some (false, w') /\
    _millis w' = 2 ^ 32 - 10 /\
    ~ (2 ^ 32 - 10 + 50 <= _millis w').
Proof.
  eexists. split; [vm_compute; reflexivity|].
  split; [reflexivity|]. simpl. lia.
Qed.

(** ** The GET command and the declared data length *)

Section GetCommand.
Context `{D : defines} `{H : hardware}.

(** C1. Once a GET for [num_words] words has reached the read of the
    DATA_LENGTH register and that read has returned [num_bytes]: if
    [num_bytes] is zero or differs from [2 * num_words] the call fails right
    there, the caller's array is handed back as it was given and nothing
    more is exchanged with the device; only when [num_bytes] is exactly
    [2 * num_words] does the call go on to read [num_words] words, and its
    outcome is then the outcome of that array read. *)
Theorem get_flir_command_checks_length fuel cmd_code data_words num_words
    w wa wb w0 w1 w2 num_bytes :
  wait_busy_bit fuel (u16 FLIR_BUSY_TIMEOUT) w = Some (true, wa) ->
  write_register fuel LEP_I2C_COMMAND_REG cmd_code wa = Some (true, wb) ->
  wait_busy_bit fuel (u16 FLIR_BUSY_TIMEOUT) wb = Some (true, w0) ->
  i2c_write16 fuel (u8 LEP_I2C_DEVICE_ADDRESS) LEP_I2C_DATA_LENGTH_REG w0
    = Some (true, w1) ->
  i2c_read16 fuel (u8 LEP_I2C_DEVICE_ADDRESS) w1 = Some (Some num_bytes, w2) ->
  (num_bytes = 0 \/ num_bytes <> 2 * num_words ->
     read_data_register fuel data_words num_words w0
       = Some ((false, data_words), w2) /\
     get_flir_command fuel cmd_code data_words num_words w
       = Some ((false, data_words), w2)) /\
  (num_bytes <> 0 -> num_bytes = 2 * num_words ->
     read_data_register fuel data_words num_words w0
       = i2c_read16_array fuel (u8 LEP_I2C_DEVICE_ADDRESS) data_words
           num_words w2 /\
     get_flir_command fuel cmd_code data_words num_words w
       = i2c_read16_array fuel (u8 LEP_I2C_DEVICE_ADDRESS) data_words
           num_words w2).
Proof.
  intros Ha Hb H0 H1 H2.
  assert (G : get_flir_command fuel cmd_code data_words num_words w =
              (r <- read_data_register fuel data_words num_words ;;
               if fst r then ret (true, snd r) else ret (false, snd r)) w0).
  { unfold get_flir_command.
    rewrite (bind_eq _ _ _ _ _ Ha), (bind_eq _ _ _ _ _ Hb),
      (bind_eq _ _ _ _ _ H0). reflexivity. }
  assert (R : read_data_register fuel data_words num_words w0 =
              (if 0 =? num_bytes then ret (false, data_words)
               else if negb (num_words * 2 =? num_bytes)
                    then ret (false, data_words)
                    else
                      r' <- i2c_read16_array fuel (u8 LEP_I2C_DEVICE_ADDRESS)
                              data_words num_words ;;
                      if negb (fst r') then ret (false, snd r')
                      else ret (true, snd r')) w2).
  { unfold read_data_register.
    rewrite (bind_eq _ _ _ _ _ H1). simpl.
    rewrite (bind_eq _ _ _ _ _ H2). reflexivity. }
  split.
  - intros Hbad.
    assert (R' : read_data_register fuel data_words num_words w0
                 = Some ((false, data_words), w2)).
    { rewrite R. destruct (0 =? num_bytes) eqn:Z0; [reflexivity|].
      destruct (num_words * 2 =? num_bytes) eqn:Z1; [|reflexivity].
      apply Z.eqb_neq in Z0. apply Z.eqb_eq in Z1. lia. }
    split; [exact R'|].
    rewrite G. rewrite (bind_eq _ _ _ _ _ R'). reflexivity.
  - intros Hnz Heq.
    assert (R' : read_data_register fuel data_words num_words w0
                 = i2c_read16_array fuel (u8 LEP_I2C_DEVICE_ADDRESS) data_words
                     num_words w2).
    { rewrite R.
      destruct (0 =? num_bytes) eqn:Z0; [apply Z.eqb_eq in Z0; lia|].
      destruct (num_words * 2 =? num_bytes) eqn:Z1;
        [|apply Z.eqb_neq in Z1; lia].
      simpl. unfold bind.
      destruct (i2c_read16_array _ _ _ _ w2) as [[[[|] buf] w3]|];
        reflexivity. }
    split; [exact R'|].
    rewrite G. unfold bind at 1. rewrite R'.
    destruct (i2c_read16_array _ _ _ _ w2) as [[[[|] buf] w3]|]; reflexivity.
Qed.

End GetCommand.

Lemma get_flir_command_checks_length_witness :
  exists w',
    get_flir_command (D := lepton)
      (H := feeds [0; 0; 0; 0; 0; 4; 0x12; 0x34; 0x56; 0x78])
      8 0x0204 [0; 0] 2 (@boot lepton)
    = Some ((true, [0x1234; 0x5678]), w').
Proof.
  edestruct (get_flir_command_checks_length (D := lepton)
               (H := feeds [0; 0; 0; 0; 0; 4; 0x12; 0x34; 0x56; 0x78])
               8 0x0204 [0; 0] 2 (@boot lepton)) as [_ K].
  - vm_compute. reflexivity.
  - vm_compute. reflexivity.
  - vm_compute. reflexivity.
  - vm_compute. reflexivity.
  - vm_compute. reflexivity.
  - destruct K as [_ K]; [discriminate | reflexivity |].
    eexists. rewrite K. vm_compute. reflexivity.
Defined.

(** A declared length of zero, or of 6 bytes for two words, stops the GET
    with the array as it was. *)
Example get_flir_command_zero_length :
  exists w',
    get_flir_command (D := lepton) (H := feeds [0; 0; 0; 0; 0; 0; 0x12; 0x34])
      8 0x0204 [7; 9] 2 (@boot lepton)
    = Some ((false, [7; 9]), w').
Proof. eexists. vm_compute. reflexivity. Qed.

Example get_flir_command_wrong_length :
  exists w',
    get_flir_command (D := lepton) (H := feeds [0; 0; 0; 0; 0; 6; 0x12; 0x34])
      8 0x0204 [7; 9] 2 (@boot lepton)
    = Some ((false, [7; 9]), w').
Proof. eexists. vm_compute. reflexivity. Qed.

(** ** The byte counts programmed *)

Section Programmed.
Context `{D : defines} `{H : hardware}.

Lemma programmed_clock t w : programmed (set_millis t w) = programmed w.
Proof. reflexivity. Qed.
Lemma programmed_seen p n v w :
  p <> RXDR -> programmed (log (Seen p n v) w) = programmed w.
Proof. reflexivity. Qed.

Lemma programmed_i2c_prepare addr dir n w u w' :
  i2c_prepare addr dir n w = Some (u, w') ->
  programmed w' = programmed w ++ [n].
Proof.
  unfold i2c_prepare, bind, call. destruct (dir =? 0); simpl;
    intros E; inversion E; reflexivity.
Qed.

Lemma programmed_wait_transmit fuel n w ok w' :
  wait_transmit fuel n w = Some (ok, w') -> programmed w' = programmed w.
Proof.
  apply (frame_wait_transmit programmed programmed_clock programmed_seen).
Qed.

Lemma programmed_i2c_write16_array_while fuel n : forall hb data w ok w',
  i2c_write16_array_while fuel n hb data w = Some (ok, w') ->
  programmed w' = programmed w.
Proof.
  induction n as [|n IH]; intros hb data w ok w' E; simpl in E.
  - inversion E. reflexivity.
  - apply bind_Some in E as (ready & w1 & E1 & E).
    apply programmed_wait_transmit in E1.
    destruct ready; [|inversion E; subst; exact E1].
    destruct hb; apply bind_Some in E as (u & w2 & E2 & E);
      unfold call in E2; inversion E2; subst; clear E2;
      apply IH in E; rewrite E; exact E1.
Qed.

Lemma i2c_write16_array_programmed fuel addr data num_words w ok w' :
  i2c_write16_array fuel addr data num_words w = Some (ok, w') ->
  programmed_during w w' = [u8 (2 * num_words)].
Proof.
  unfold i2c_write16_array. intros E.
  apply bind_Some in E as (u & w1 & E1 & E).
  apply programmed_i2c_prepare in E1.
  apply programmed_i2c_write16_array_while in E.
  unfold programmed_during. rewrite E, E1. apply during_app.
Qed.

End Programmed.

(** ** The SET command and the address of its payload *)

Section SetCommand.
Context `{D : defines} `{H : hardware}.

Lemma i2c_write16_array_while_sent fuel k :
  forall data w w',
    (k <= List.length data)%nat ->
    i2c_write16_array_while fuel (2 * k) true data w = Some (true, w') ->
    sent w' = sent w ++ word_bytes (firstn k data).
Proof.
  induction k as [|k IH]; intros data w w' Hlen E.
  - simpl in E. inversion E. simpl. now rewrite app_nil_r.
  - destruct data as [|x rest]; [simpl in Hlen; lia|].
    replace (2 * S k)%nat with (S (S (2 * k))) in E by lia.
    simpl in E.
    apply bind_Some in E as (ok & w1 & E1 & E). destruct ok; [|inversion E].
    apply (frame_wait_transmit sent sent_clock sent_seen) in E1.
    apply bind_Some in E as (u & w2 & E2 & E).
    apply sent_i2c_send_data in E2.
    apply bind_Some in E as (ok & w3 & E3 & E). destruct ok; [|inversion E].
    apply (frame_wait_transmit sent sent_clock sent_seen) in E3.
    apply bind_Some in E as (u' & w4 & E4 & E).
    apply sent_i2c_send_data in E4.
    replace (k + (k + 0))%nat with (2 * k)%nat in E by lia.
    apply IH in E; [|simpl in Hlen; lia].
    rewrite E, E4, E3, E2, E1. simpl. rewrite <- !app_assoc. reflexivity.
Qed.

Lemma i2c_write16_array_sent fuel addr data num_words w w' :
  0 <= num_words < 2 ^ 8 ->
  (Z.to_nat num_words <= List.length data)%nat ->
  i2c_write16_array fuel addr data num_words w = Some (true, w') ->
  sent w' = sent w ++ word_bytes (firstn (Z.to_nat num_words) data).
Proof.
  intros R Hlen E. unfold i2c_write16_array in E.
  apply bind_Some in E as (u & w1 & E1 & E).
  apply (frame_i2c_prepare sent sent_call) in E1.
  replace (Z.to_nat (u16 (2 * num_words)))
    with (2 * Z.to_nat num_words)%nat in E.
  - apply i2c_write16_array_while_sent in E; [|assumption]. now rewrite E, E1.
  - unfold u16. rewrite Z.mod_small by lia. lia.
Qed.

Lemma write_register_sent fuel reg value w w' :
  write_register fuel reg value w = Some (true, w') ->
  sent w' = sent w ++ word_bytes [reg; value].
Proof.
  unfold write_register. intros E.
  apply bind_Some in E as (ok & w1 & E1 & E). destruct ok; [|inversion E].
  inversion E; subst; clear E.
  apply i2c_write16_array_sent in E1; [exact E1 | lia | simpl; lia].
Qed.

Lemma write_register_programmed fuel reg value w ok w' :
  write_register fuel reg value w = Some (ok, w') ->
  programmed w' = programmed w ++ [4].
Proof.
  unfold write_register. intros E.
  apply bind_Some in E as (done & w1 & E1 & E).
  assert (w' = w1) as -> by (destruct done; inversion E; reflexivity).
  unfold i2c_write16_array in E1.
  apply bind_Some in E1 as (u & w0 & E0 & E1).
  apply programmed_i2c_prepare in E0.
  apply programmed_i2c_write16_array_while in E1. now rewrite E1, E0.
Qed.

(** For a payload that leaves room for its address in a [uint8_t] count of
    words, the register write with payload is the word-array write of the
    sources, [i2c_write16_array], on the address followed by the payload. *)
Lemma write_register_with_payload_array fuel reg data_words num_words :
  0 <= num_words <= 254 ->
  write_register_with_payload fuel reg data_words num_words
  = i2c_write16_array fuel (u8 LEP_I2C_DEVICE_ADDRESS) (reg :: data_words)
      (num_words + 1).
Proof.
  intros R. unfold write_register_with_payload, i2c_write16_array.
  f_equal. unfold u16. now rewrite Z.mod_small by lia.
Qed.

(** The bytes of a register write with payload: the address, then the
    payload words in order; the byte count programmed for them is the count
    of these bytes modulo 256. *)
Lemma write_register_with_payload_sent fuel reg data_words num_words w w' :
  0 <= num_words ->
  (Z.to_nat num_words <= List.length data_words)%nat ->
  write_register_with_payload fuel reg data_words num_words w
    = Some (true, w') ->
  sent w' = sent w
            ++ word_bytes (reg :: firstn (Z.to_nat num_words) data_words) /\
  programmed w' = programmed w ++ [(2 * (num_words + 1)) mod 256].
Proof.
  intros R Hlen E. unfold write_register_with_payload in E.
  apply bind_Some in E as (u & w1 & E1 & E).
  pose proof (frame_i2c_prepare sent sent_call _ _ _ _ _ _ E1) as S1.
  apply programmed_i2c_prepare in E1.
  pose proof (programmed_i2c_write16_array_while _ _ _ _ _ _ _ E) as P.
  replace (Z.to_nat (2 * (num_words + 1)))
    with (2 * S (Z.to_nat num_words))%nat in E by lia.
  apply i2c_write16_array_while_sent in E; [|simpl; lia].
  split; [now rewrite E, S1 | now rewrite P, E1].
Qed.

(** A word-array loop that returns, with whatever result, has sent the
    bytes of its words in order from the first, as far as it got. *)
Lemma i2c_write16_array_while_prefix fuel k :
  forall data w ok w',
    (k <= List.length data)%nat ->
    i2c_write16_array_while fuel (2 * k) true data w = Some (ok, w') ->
    exists j, sent w' = sent w ++ firstn j (word_bytes (firstn k data)).
Proof.
  induction k as [|k IH]; intros data w ok w' Hlen E.
  - simpl in E. inversion E. exists O. simpl. now rewrite app_nil_r.
  - destruct data as [|x rest]; [simpl in Hlen; lia|].
    replace (2 * S k)%nat with (S (S (2 * k))) in E by lia.
    simpl in E.
    apply bind_Some in E as (ready & w1 & E1 & E).
    apply (frame_wait_transmit sent sent_clock sent_seen) in E1.
    destruct ready;
      [|inversion E; subst; exists O; simpl; now rewrite app_nil_r].
    apply bind_Some in E as (u & w2 & E2 & E).
    apply sent_i2c_send_data in E2.
    apply bind_Some in E as (ready & w3 & E3 & E).
    apply (frame_wait_transmit sent sent_clock sent_seen) in E3.
    destruct ready;
      [|inversion E; subst; exists 1%nat; now rewrite E3, E2, E1].
    apply bind_Some in E as (u' & w4 & E4 & E).
    apply sent_i2c_send_data in E4.
    replace (k + (k + 0))%nat with (2 * k)%nat in E by lia.
    apply IH in E as (j & E); [|simpl in Hlen; lia].
    exists (S (S j)). rewrite E, E4, E3, E2, E1. simpl.
    rewrite <- !app_assoc. reflexivity.
Qed.

Lemma write_register_prefix fuel reg value w ok w' :
  write_register fuel reg value w = Some (ok, w') ->
  exists j, sent w' = sent w ++ firstn j (word_bytes [reg; value]).
Proof.
  unfold write_register. intros E.
  apply bind_Some in E as (done & w1 & E1 & E).
  assert (w' = w1) as -> by (destruct done; inversion E; reflexivity).
  unfold i2c_write16_array in E1.
  apply bind_Some in E1 as (u & w0 & E0 & E1).
  apply (frame_i2c_prepare sent sent_call) in E0.
  change (Z.to_nat (u16 (2 * 2))) with (2 * 2)%nat in E1.
  apply i2c_write16_array_while_prefix in E1 as (j & E1); [|simpl; lia].
  exists j. now rewrite E1, E0.
Qed.

Lemma write_register_with_payload_prefix fuel reg data_words num_words w ok
    w' :
  0 <= num_words ->
  (Z.to_nat num_words <= List.length data_words)%nat ->
  write_register_with_payload fuel reg data_words num_words w
    = Some (ok, w') ->
  exists j,
    sent w' = sent w
              ++ firstn j (word_bytes
                             (reg :: firstn (Z.to_nat num_words) data_words)).
Proof.
  intros R Hlen E. unfold write_register_with_payload in E.
  apply bind_Some in E as (u & w1 & E1 & E).
  apply (frame_i2c_prepare sent sent_call) in E1.
  replace (Z.to_nat (2 * (num_words + 1)))
    with (2 * S (Z.to_nat num_words))%nat in E by lia.
  apply i2c_write16_array_while_prefix in E as (j & E); [|simpl; lia].
  exists j. now rewrite E, E1.
Qed.

Lemma firstn_front {A} j (l l' : list A) :
  firstn j l = firstn (Nat.min j (List.length l)) (l ++ l').
Proof.
  rewrite firstn_app.
  replace (Nat.min j (List.length l) - List.length l)%nat with O by lia.
  simpl. rewrite app_nil_r.
  destruct (Nat.le_gt_cases j (List.length l)) as [Le|Gt].
  - now rewrite Nat.min_l.
  - rewrite Nat.min_r, firstn_all by lia. apply firstn_all2. lia.
Qed.

(** The step of a SET that writes the payload and the command, whatever
    the transport does: what it has sent when it returns is the start of
    the payload address, the payload words and then COMMAND and the command
    code; all of it, in two transfers, when the result is [0]. *)
Lemma write_command_register_sent fuel cmd_code data_words num_words w
    status w' :
  0 <= num_words ->
  (Z.to_nat num_words <= List.length data_words)%nat ->
  write_command_register fuel cmd_code data_words num_words w
    = Some (status, w') ->
  let bytes :=
    word_bytes (payload_address num_words
                :: firstn (Z.to_nat num_words) data_words)
    ++ word_bytes [LEP_I2C_COMMAND_REG; cmd_code] in
  (exists j, sent_during w w' = firstn j bytes) /\
  (status = 0 ->
   sent_during w w' = bytes /\
   programmed_during w w' = [(2 * (num_words + 1)) mod 256; 4]).
Proof.
  intros R Hlen E bytes. unfold write_command_register in E.
  apply bind_Some in E as (stored & w1 & Ep & E).
  destruct (write_register_with_payload_prefix _ _ _ _ _ _ _ R Hlen Ep)
    as (j & Sj).
  destruct stored.
  - apply write_register_with_payload_sent in Ep as [Sp Pp];
      [|assumption|assumption].
    apply bind_Some in E as (issued & w2 & Ec & E).
    destruct (write_register_prefix _ _ _ _ _ _ Ec) as (i & Si).
    assert (w' = w2) as -> by (destruct issued; inversion E; reflexivity).
    split.
    + eexists. unfold sent_during. rewrite Si, Sp, <- app_assoc, during_app.
      unfold bytes. symmetry. apply firstn_app_2.
    + intros ->. destruct issued; [|discriminate].
      pose proof (write_register_sent _ _ _ _ _ Ec) as Sc.
      apply write_register_programmed in Ec. split.
      * unfold sent_during. rewrite Sc, Sp, <- app_assoc. apply during_app.
      * unfold programmed_during. rewrite Ec, Pp, <- app_assoc.
        apply during_app.
  - inversion E; subst; clear E. split; [|discriminate].
    eexists. unfold sent_during. rewrite Sj, during_app.
    unfold bytes. apply firstn_front.
Qed.

(** C7. A SET command, for any word count a [uint8_t] holds and no larger
    than the array.  The payload address is the first direct slot, DATA_0,
    for at most 16 words and the buffer window, DATA_BUFFER, for more than
    16.  If the first wait for the busy bit fails, the command fails there
    and nothing is written.  Otherwise comes the step that writes the
    payload and the command.  Whatever the transport does, what that step
    has sent when it returns is the start of: the payload address, high
    byte first, the payload words in order, the address of COMMAND and the
    command code; when it returns [0] it has sent all of that, in two
    transfers, and the command goes on to its second wait, and when it
    returns anything else the command fails.  With a transmitter that is
    ready and room for one poll in each wait, the step does return [0]. *)
Theorem set_flir_command_payload_address fuel cmd_code data_words num_words
    w ready w1 :
  0 <= num_words <= 255 ->
  (Z.to_nat num_words <= List.length data_words)%nat ->
  wait_busy_bit fuel (u16 FLIR_BUSY_TIMEOUT) w = Some (ready, w1) ->
  let bytes :=
    word_bytes (payload_address num_words
                :: firstn (Z.to_nat num_words) data_words)
    ++ word_bytes [LEP_I2C_COMMAND_REG; cmd_code] in
  (num_words <= 16 -> payload_address num_words = LEP_I2C_DATA_0_REG) /\
  (16 < num_words -> payload_address num_words = LEP_I2C_DATA_BUFFER) /\
  (ready = false ->
   set_flir_command fuel cmd_code data_words num_words w
   = Some (false, w1)) /\
  (ready = true ->
   (forall status w2,
      write_command_register fuel cmd_code data_words num_words w1
        = Some (status, w2) ->
      (exists j, sent_during w1 w2 = firstn j bytes) /\
      (status = 0 ->
       sent_during w1 w2 = bytes /\
       programmed_during w1 w2 = [(2 * (num_words + 1)) mod 256; 4] /\
       set_flir_command fuel cmd_code data_words num_words w
       = (done <- wait_busy_bit fuel (u16 FLIR_BUSY_TIMEOUT) ;;
          if done then ret true else ret false) w2) /\
      (status <> 0 ->
       set_flir_command fuel cmd_code data_words num_words w
       = Some (false, w2))) /\
   ((forall h, val (respond h TXIS) <> 0) ->
    (forall h, val (respond h NACKF) = 0) ->
    (0 < fuel)%nat ->
    exists w2,
      write_command_register fuel cmd_code data_words num_words w1
      = Some (0, w2))).
Proof.
  intros R Hlen E1 bytes.
  split; [|split; [|split]].
  - intros Le. unfold payload_address.
    destruct (Z.leb_spec num_words 16); [reflexivity | lia].
  - intros Gt. unfold payload_address.
    destruct (Z.leb_spec num_words 16); [lia | reflexivity].
  - intros ->. unfold set_flir_command. now rewrite (bind_eq _ _ _ _ _ E1).
  - intros ->. split.
    + intros status w2 Es. assert (R0 : 0 <= num_words) by lia.
      destruct (write_command_register_sent _ _ _ _ _ _ _ R0 Hlen Es)
        as (Pre & All).
      split; [exact Pre|]. split.
      * intros ->. destruct All as (Sd & Pd); [reflexivity|].
        split; [exact Sd|]. split; [exact Pd|].
        unfold set_flir_command.
        now rewrite (bind_eq _ _ _ _ _ E1), (bind_eq _ _ _ _ _ Es).
      * intros Ne. unfold set_flir_command.
        rewrite (bind_eq _ _ _ _ _ E1), (bind_eq _ _ _ _ _ Es).
        destruct (Z.eqb_spec status 0); [contradiction | reflexivity].
    + intros Tx Ack Hf. destruct fuel as [|n]; [lia|].
      assert (P : exists wp,
                 write_register_with_payload (S n)
                   (payload_address num_words) data_words num_words w1
                 = Some (true, wp)).
      { unfold write_register_with_payload.
        destruct (i2c_prepare_returns (u8 LEP_I2C_DEVICE_ADDRESS)
                    (u8 I2C_WRITE_DIR) (u8 (2 * (num_words + 1))) w1)
          as (w0 & E0).
        rewrite (bind_eq _ _ _ _ _ E0).
        apply (i2c_write16_array_while_returns Tx Ack). }
      destruct P as (wp & Ep).
      destruct (write_register_returns Tx Ack n LEP_I2C_COMMAND_REG cmd_code
                  wp) as (w2 & Ec).
      exists w2. unfold write_command_register.
      now rewrite (bind_eq _ _ _ _ _ Ep), (bind_eq _ _ _ _ _ Ec).
Qed.

End SetCommand.

Lemma set_flir_command_payload_address_witness :
  exists w1 w2 w',
    write_command_register (D := lepton) (H := steady 0) 1 0x0205
      (map Z.of_nat (seq 1 20)) 20 w1 = Some (0, w2) /\
    firstn 6 (sent_during w1 w2) = [0xF8; 0x00; 0; 1; 0; 2] /\
    List.length (sent_during w1 w2) = 46%nat /\
    set_flir_command (D := lepton) (H := steady 0) 1 0x0205
      (map Z.of_nat (seq 1 20)) 20 (@boot lepton) = Some (true, w').
Proof.
  destruct (set_flir_command_payload_address (D := lepton) (H := steady 0)
              1 0x0205 (map Z.of_nat (seq 1 20)) 20 (@boot lepton) true
              (state_after
                 (wait_busy_bit (D := lepton) (H := steady 0) 1 50)
                 (@boot lepton)))
    as (_ & Far & _ & Go);
    [lia | simpl; lia | vm_compute; reflexivity |].
  destruct Go as (Any & Ready); [reflexivity|].
  destruct Ready as (w2 & Es);
    [intros h; simpl; discriminate | intros h; reflexivity | lia |].
  destruct (Any _ _ Es) as (_ & All & _).
  destruct All as (Sd & _); [reflexivity|].
  eexists. exists w2. eexists. split; [exact Es|].
  rewrite Sd, (Far ltac:(lia)). split; [reflexivity|].
  split; [reflexivity|]. vm_compute. reflexivity.
Defined.

(** Sixteen words still go to the first direct slot. *)
Example set_flir_command_16_words :
  payload_address (D := lepton) 16 = 0x0008 /\
  payload_address (D := lepton) 17 = 0xF800.
Proof. split; reflexivity. Qed.

(** The largest payload a [uint8_t] can ask for, 255 words, goes out behind
    the buffer-window address like any other: 512 bytes in one transfer and
    four for the command, the first transfer announced as 0 bytes, its
    count of 512 taken modulo 256. *)
Example set_flir_command_255_words :
  let payload := repeat 0xABCD 255 in
  let w1 :=
    state_after (wait_busy_bit (D := lepton) (H := steady 0) 1 50)
      (@boot lepton) in
  let step :=
    write_command_register (D := lepton) (H := steady 0) 1 0x0205
      payload 255 in
  let w2 := state_after step w1 in
  option_map fst (step w1) = Some 0 /\
  firstn 6 (sent_during w1 w2) = [0xF8; 0x00; 0xAB; 0xCD; 0xAB; 0xCD] /\
  List.length (sent_during w1 w2) = 516%nat /\
  programmed_during w1 w2 = [0; 4] /\
  option_map fst
    (set_flir_command (D := lepton) (H := steady 0) 1 0x0205 payload 255
       (@boot lepton)) = Some true.
Proof. vm_compute. repeat split. Qed.

(** * Further properties of the driver *)

(** ** Stores into the caller's array *)

Lemma length_poke i v l : List.length (poke i v l) = List.length l.
Proof.
  revert i. induction l as [|x t IH]; intros [|i]; simpl; auto.
Qed.

Lemma poke_split i v l :
  (i < List.length l)%nat ->
  poke i v l = firstn i l ++ v :: skipn (S i) l.
Proof.
  revert i. induction l as [|x t IH]; intros [|i] Hi; simpl in *; try lia.
  - reflexivity.
  - f_equal. apply IH. lia.
Qed.

Lemma length_put values : forall ptr data,
  List.length (put ptr values data) = List.length data.
Proof.
  induction values as [|x rest IH]; intros ptr data; simpl; [reflexivity|].
  rewrite IH. apply length_poke.
Qed.

Lemma put_split values : forall ptr data,
  (ptr + List.length values <= List.length data)%nat ->
  put ptr values data
  = firstn ptr data ++ values ++ skipn (ptr + List.length values) data.
Proof.
  induction values as [|x rest IH]; intros ptr data Hlen; simpl in *.
  - rewrite Nat.add_0_r. symmetry. apply firstn_skipn.
  - rewrite IH by (rewrite length_poke; lia).
    rewrite poke_split by lia.
    assert (Lf : List.length (firstn ptr data) = ptr)
      by (apply firstn_length_le; lia).
    replace (firstn (S ptr) (firstn ptr data ++ x :: skipn (S ptr) data))
      with (firstn ptr data ++ [x]).
    + replace (skipn (S ptr + List.length rest)
                 (firstn ptr data ++ x :: skipn (S ptr) data))
        with (skipn (ptr + S (List.length rest)) data).
      * rewrite <- app_assoc. reflexivity.
      * rewrite skipn_app, Lf.
        rewrite (skipn_all2 (firstn ptr data)) by lia.
        replace (S ptr + List.length rest - ptr)%nat
          with (S (List.length rest)) by lia.
        rewrite app_nil_l, skipn_cons, skipn_skipn. f_equal. lia.
    + rewrite firstn_app, Lf.
      rewrite (firstn_all2 (firstn ptr data)) by lia.
      replace (S ptr - ptr)%nat with 1%nat by lia. reflexivity.
Qed.

Lemma during_nil {A} (l : list A) : skipn (List.length l) l = [].
Proof. apply skipn_all. Qed.

(** ** Single bytes and byte arrays *)

Section Bytes.
Context `{D : defines} `{H : hardware}.

(** X1. [i2c_write] hands exactly its one byte to the peripheral when it
    returns [true], and no byte at all when it returns [false]. *)
Theorem i2c_write_sends_or_not fuel addr data w ok w' :
  i2c_write fuel addr data w = Some (ok, w') ->
  sent_during w w' = if ok then [data] else [].
Proof.
  unfold i2c_write. intros E.
  apply bind_Some in E as (u & w1 & E1 & E).
  apply (frame_i2c_prepare sent sent_call) in E1.
  apply bind_Some in E as (ready & w2 & E2 & E).
  apply (frame_wait_transmit sent sent_clock sent_seen) in E2.
  unfold sent_during. destruct ready.
  - apply bind_Some in E as (u' & w3 & E3 & E).
    apply sent_i2c_send_data in E3. inversion E; subst; clear E.
    rewrite E3, E2, E1. apply during_app.
  - inversion E; subst; clear E. rewrite E2, E1. apply during_nil.
Qed.

Lemma i2c_write_array_while_sent fuel n : forall data w ok w',
  (n <= List.length data)%nat ->
  i2c_write_array_while fuel n data w = Some (ok, w') ->
  exists k,
    sent w' = sent w ++ firstn k data /\
    (if ok then k = n else (k < n)%nat).
Proof.
  induction n as [|n IH]; intros data w ok w' Hlen E; simpl in E.
  - inversion E; subst. exists O. simpl. now rewrite app_nil_r.
  - destruct data as [|x rest]; [simpl in Hlen; lia|].
    apply bind_Some in E as (ready & w1 & E1 & E).
    apply (frame_wait_transmit sent sent_clock sent_seen) in E1.
    destruct ready.
    + apply bind_Some in E as (u & w2 & E2 & E).
      apply sent_i2c_send_data in E2. simpl in E.
      apply IH in E as (k & Sk & K); [|simpl in Hlen; lia].
      exists (S k). split.
      * rewrite Sk, E2, E1. simpl. now rewrite <- app_assoc.
      * destruct ok; lia.
    + inversion E; subst; clear E. exists O. split; [|lia].
      simpl. now rewrite app_nil_r.
Qed.

(** X2. [i2c_write_array], asked for no more bytes than the array holds,
    sends the bytes of the array in order from the first: all [num_bytes]
    of them when it returns [true], fewer when it returns [false]. *)
Theorem i2c_write_array_in_order fuel addr data num_bytes w ok w' :
  0 <= num_bytes ->
  (Z.to_nat num_bytes <= List.length data)%nat ->
  i2c_write_array fuel addr data num_bytes w = Some (ok, w') ->
  exists k,
    sent_during w w' = firstn k data /\
    (if ok then k = Z.to_nat num_bytes else (k < Z.to_nat num_bytes)%nat).
Proof.
  intros R Hlen E. unfold i2c_write_array in E.
  apply bind_Some in E as (u & w1 & E1 & E).
  apply (frame_i2c_prepare sent sent_call) in E1.
  apply i2c_write_array_while_sent in E as (k & Sk & K); [|assumption].
  exists k. split; [|exact K].
  unfold sent_during. rewrite Sk, E1. apply during_app.
Qed.

(** X3. [i2c_read] takes exactly one byte from the receive register when
    it succeeds, and that byte is its result; when it fails it has taken
    none. *)
Theorem i2c_read_takes_one_or_none fuel addr w r w' :
  i2c_read fuel addr w = Some (r, w') ->
  received_during w w' = match r with Some b => [b] | None => [] end.
Proof.
  unfold i2c_read. intros E.
  apply bind_Some in E as (u & w1 & E1 & E).
  apply (frame_i2c_prepare received received_call) in E1.
  apply bind_Some in E as (ok & w2 & E2 & E).
  apply received_wait in E2.
  unfold received_during. destruct ok.
  - apply bind_Some in E as (b & w3 & E3 & E).
    apply received_i2c_get_data in E3 as [E3 _].
    inversion E; subst; clear E. rewrite E3, E2, E1. apply during_app.
  - inversion E; subst; clear E. rewrite E2, E1. apply during_nil.
Qed.

Lemma i2c_read_array_for_stores fuel num_bytes n :
  num_bytes < 256 ->
  forall i data w ok data' w',
    0 <= i <= num_bytes ->
    i2c_read_array_for fuel n num_bytes i data w = Some ((ok, data'), w') ->
    exists taken,
      received w' = received w ++ taken /\
      data' = put (Z.to_nat i) taken data /\
      (if ok then Z.of_nat (List.length taken) = num_bytes - i
       else Z.of_nat (List.length taken) < num_bytes - i).
Proof.
  intros Hb. induction n as [|n IH]; intros i data w ok data' w' Ri E;
    simpl in E; [discriminate|].
  destruct (Z.ltb_spec i num_bytes) as [Lt|Ge].
  - apply bind_Some in E as (ready & w1 & E1 & E).
    apply received_wait in E1. destruct ready.
    + apply bind_Some in E as (b & w2 & E2 & E).
      apply received_i2c_get_data in E2 as [E2 _].
      assert (U : u8 (i + 1) = i + 1) by (apply Z.mod_small; lia).
      rewrite U in E. apply IH in E as (taken & R & P & L); [|lia].
      exists (b :: taken). split; [|split].
      * rewrite R, E2, E1, <- app_assoc. reflexivity.
      * rewrite P. simpl. repeat f_equal. lia.
      * simpl List.length. destruct ok; lia.
    + inversion E; subst; clear E. exists []. split; [|split].
      * rewrite E1. now rewrite app_nil_r.
      * reflexivity.
      * simpl. lia.
  - inversion E; subst; clear E. exists []. split; [|split].
    + now rewrite app_nil_r.
    + reflexivity.
    + simpl. lia.
Qed.

(** X4. [i2c_read_array], asked for no more bytes than the array holds
    (and at most 255), stores the bytes it receives at the start of the
    array, in the order received, and leaves the rest of the array alone:
    [num_bytes] of them when it returns [true], fewer when it returns
    [false]. *)
Theorem i2c_read_array_in_order fuel addr data num_bytes w ok data' w' :
  0 <= num_bytes < 256 ->
  (Z.to_nat num_bytes <= List.length data)%nat ->
  i2c_read_array fuel addr data num_bytes w = Some ((ok, data'), w') ->
  data' = received_during w w'
          ++ skipn (List.length (received_during w w')) data /\
  (if ok then List.length (received_during w w') = Z.to_nat num_bytes
   else (List.length (received_during w w') < Z.to_nat num_bytes)%nat).
Proof.
  intros R Hlen E. unfold i2c_read_array in E.
  apply bind_Some in E as (u & w1 & E1 & E).
  apply (frame_i2c_prepare received received_call) in E1.
  apply i2c_read_array_for_stores in E as (taken & T & P & L); try lia.
  assert (RD : received_during w w' = taken).
  { unfold received_during. rewrite T, E1. apply during_app. }
  rewrite RD. split.
  - rewrite P. simpl. rewrite put_split; [reflexivity|]. destruct ok; lia.
  - destruct ok; lia.
Qed.

End Bytes.

Lemma i2c_write_sends_or_not_witness :
  exists w',
    i2c_write (D := lepton) (H := steady 0) 2 0x2A 0x5A (@boot lepton)
      = Some (true, w') /\
    sent_during (@boot lepton) w' = [0x5A].
Proof.
  eexists. split; [vm_compute; reflexivity|].
  match goal with
  | |- sent_during _ ?a = _ =>
      apply (i2c_write_sends_or_not (D := lepton) (H := steady 0)
               2 0x2A 0x5A (@boot lepton) true a)
  end.
  vm_compute. reflexivity.
Defined.

Lemma i2c_write_array_in_order_witness :
  exists w' k,
    i2c_write_array (D := lepton) (H := steady 0) 2 0x2A [1; 2; 3; 4] 3
      (@boot lepton) = Some (true, w') /\
    sent_during (@boot lepton) w' = firstn k [1; 2; 3; 4] /\ k = 3%nat.
Proof.
  eexists.
  match goal with
  | |- exists k, _ = Some (_, ?a) /\ _ =>
      destruct (i2c_write_array_in_order (D := lepton) (H := steady 0)
                  2 0x2A [1; 2; 3; 4] 3 (@boot lepton) true
                  (state_after
                     (i2c_write_array (D := lepton) (H := steady 0) 2 0x2A
                        [1; 2; 3; 4] 3) (@boot lepton)))
        as (k & S & K)
  end.
  - lia.
  - simpl. lia.
  - vm_compute. reflexivity.
  - exists k. split; [vm_compute; reflexivity|]. split; [exact S | exact K].
Defined.

Lemma i2c_read_takes_one_or_none_witness :
  exists w',
    i2c_read (D := lepton) (H := feeds [0x77]) 2 0x2A (@boot lepton)
      = Some (Some 0x77, w') /\
    received_during (@boot lepton) w' = [0x77].
Proof.
  eexists. split; [vm_compute; reflexivity|].
  match goal with
  | |- received_during _ ?a = _ =>
      apply (i2c_read_takes_one_or_none (D := lepton) (H := feeds [0x77])
               2 0x2A (@boot lepton) (Some 0x77) a)
  end.
  vm_compute. reflexivity.
Defined.

Lemma i2c_read_array_in_order_witness :
  exists w',
    i2c_read_array (D := lepton) (H := feeds [7; 8; 9]) 5 0x2A [0; 0; 0; 5] 3
      (@boot lepton) = Some ((true, [7; 8; 9; 5]), w').
Proof.
  eexists.
  match goal with
  | |- _ = Some (_, ?a) =>
      destruct (i2c_read_array_in_order (D := lepton) (H := feeds [7; 8; 9])
                  5 0x2A [0; 0; 0; 5] 3 (@boot lepton) true [7; 8; 9; 5]
                  (state_after
                     (i2c_read_array (D := lepton) (H := feeds [7; 8; 9]) 5
                        0x2A [0; 0; 0; 5] 3) (@boot lepton)))
        as (_ & _)
  end.
  - lia.
  - simpl. lia.
  - vm_compute. reflexivity.
  - vm_compute. reflexivity.
Defined.

(** ** Waits and the clock *)

Section Waits.
Context `{D : defines} `{H : hardware}.

Lemma millis_reads_clock w now w' :
  millis w = Some (now, w') -> _millis w' = now.
Proof.
  unfold millis. intros E. apply bind_Some in E as (v & w1 & _ & E).
  inversion E. reflexivity.
Qed.

Lemma wait_for_ack_while_outcome n until : forall w ok w',
  wait_for_ack_while n until w = Some (ok, w') ->
  if ok then exists k t, trace w' = Seen NACKF k 0 :: t
  else _millis w' > until.
Proof.
  induction n as [|n IH]; intros w ok w' E; simpl in E; [discriminate|].
  apply bind_Some in E as (nack & w1 & E1 & E).
  destruct nack.
  - apply bind_Some in E as (now & w2 & E2 & E).
    apply millis_reads_clock in E2.
    destruct (Z.gtb_spec now until) as [Gt|Le].
    + inversion E; subst. lia.
    + eapply IH. exact E.
  - inversion E; subst; clear E.
    unfold i2c_nack in E1. apply bind_Some in E1 as (v & w2 & E1 & E2).
    unfold observe in E1. inversion E1; subst; clear E1.
    inversion E2 as [[Hv Hw]]. subst w'.
    destruct (Z.eqb_spec (val (respond (trace w) NACKF)) 0) as [Z0|];
      [|discriminate].
    simpl. rewrite Z0. eauto.
Qed.

Lemma wait_for_empty_data_reg_while_outcome n until : forall w ok w',
  wait_for_empty_data_reg_while n until w = Some (ok, w') ->
  if ok then exists k v t, trace w' = Seen RXNE k v :: t /\ v <> 0
  else _millis w' > until.
Proof.
  induction n as [|n IH]; intros w ok w' E; simpl in E; [discriminate|].
  apply bind_Some in E as (rxne & w1 & E1 & E).
  destruct rxne; simpl in E.
  - inversion E; subst; clear E.
    unfold i2c_received_data in E1. apply bind_Some in E1 as (v & w2 & E1 & E2).
    unfold observe in E1. inversion E1; subst; clear E1.
    inversion E2 as [[Hv Hw]]. subst w'.
    destruct (Z.eqb_spec (val (respond (trace w) RXNE)) 0) as [|NZ];
      [discriminate|].
    simpl. eauto.
  - apply bind_Some in E as (now & w2 & E2 & E).
    apply millis_reads_clock in E2.
    destruct (Z.gtb_spec now until) as [Gt|Le].
    + inversion E; subst. lia.
    + eapply IH. exact E.
Qed.

(** X5. The two waits of the byte transport give up only after their
    time is up.  [wait_for_ack] and [wait_for_empty_data_reg] return
    [false] only with the clock past the deadline they computed on entry,
    the clock as first read plus the timeout, in 64 bits; and they return
    [true] only straight after reading the flag they wait for, NACKF clear
    for the one, RXNE set for the other. *)
Theorem waits_end_on_flag_or_deadline fuel timeout w ok w' :
  (wait_for_ack fuel timeout w = Some (ok, w') ->
   exists start w0,
     millis w = Some (start, w0) /\
     if ok then exists k t, trace w' = Seen NACKF k 0 :: t
     else _millis w' > u64 (start + timeout)) /\
  (wait_for_empty_data_reg fuel timeout w = Some (ok, w') ->
   exists start w0,
     millis w = Some (start, w0) /\
     if ok then exists k v t, trace w' = Seen RXNE k v :: t /\ v <> 0
     else _millis w' > u64 (start + timeout)).
Proof.
  split; intros E.
  - unfold wait_for_ack in E. apply bind_Some in E as (start & w0 & E0 & E).
    exists start, w0. split; [exact E0|].
    apply wait_for_ack_while_outcome in E. exact E.
  - unfold wait_for_empty_data_reg in E.
    apply bind_Some in E as (start & w0 & E0 & E).
    exists start, w0. split; [exact E0|].
    apply wait_for_empty_data_reg_while_outcome in E. exact E.
Qed.

Lemma delay_while_outcome n until : forall w u w',
  delay_while n until w = Some (u, w') -> until <= _millis w'.
Proof.
  induction n as [|n IH]; intros w u w' E; simpl in E; [discriminate|].
  apply bind_Some in E as (now & w1 & E1 & E).
  apply millis_reads_clock in E1.
  destruct (Z.ltb_spec now until) as [Lt|Ge].
  - eapply IH. exact E.
  - inversion E; subst. lia.
Qed.

(** X6. [delay] does not return early: when it returns, the clock has
    reached the clock as first read plus the duration, in 64 bits.
    [flir_delay] inherits this for its 32-bit argument. *)
Theorem delay_sleeps_long_enough fuel duration w u w' :
  (delay fuel duration w = Some (u, w') ->
   exists start w0,
     millis w = Some (start, w0) /\ u64 (start + duration) <= _millis w') /\
  (flir_delay fuel duration w = Some (u, w') ->
   exists start w0,
     millis w = Some (start, w0) /\
     u64 (start + u32 duration) <= _millis w').
Proof.
  assert (G : forall d, delay fuel d w = Some (u, w') ->
              exists start w0,
                millis w = Some (start, w0) /\ u64 (start + d) <= _millis w').
  { intros d E. unfold delay in E.
    apply bind_Some in E as (start & w0 & E0 & E).
    exists start, w0. split; [exact E0|].
    eapply delay_while_outcome. exact E. }
  split; [apply G|]. unfold flir_delay. apply G.
Qed.

Section RunningClock.
Hypothesis one_tick : forall h, irq (respond h SYSTICK) = 1%nat.

Lemma millis_ticks w :
  exists w', millis w = Some (u64 (_millis w + 1), w') /\
             _millis w' = u64 (_millis w + 1).
Proof.
  unfold millis, bind, observe. rewrite one_tick. simpl. eauto.
Qed.

Lemma delay_while_returns rounds : forall n until w,
  0 <= _millis w -> until < 2 ^ 64 ->
  _millis w + Z.of_nat (S rounds) = until -> (rounds < n)%nat ->
  exists w', delay_while n until w = Some (tt, w') /\ _millis w' = until.
Proof.
  induction rounds as [|rounds IH]; intros n until w T0 Tu Td Hn;
    (destruct n as [|n]; [lia|]); simpl;
    destruct (millis_ticks w) as (w1 & E1 & T1);
    rewrite (bind_eq _ _ _ _ _ E1);
    assert (U : u64 (_millis w + 1) = _millis w + 1)
      by (apply Z.mod_small; lia);
    rewrite U in *.
  - destruct (Z.ltb_spec (_millis w + 1) until) as [Lt|Ge]; [lia|].
    exists w1. split; [reflexivity | lia].
  - destruct (Z.ltb_spec (_millis w + 1) until) as [Lt|Ge]; [|lia].
    apply IH; lia.
Qed.

(** X7. With a clock that advances by one millisecond at each reading,
    [delay] returns, given room for [duration] readings, and the clock has
    then advanced by [duration] milliseconds since [delay] first read it
    (by one when [duration] is zero: the loop reads the clock once more
    before it compares). *)
Theorem delay_returns fuel duration w :
  0 <= duration -> 0 <= _millis w ->
  _millis w + 1 + Z.max duration 1 < 2 ^ 64 ->
  (Z.to_nat duration < fuel)%nat ->
  exists w',
    delay fuel duration w = Some (tt, w') /\
    _millis w' = (_millis w + 1) + Z.max duration 1.
Proof.
  intros Rd T0 Tw Hf. unfold delay.
  destruct (millis_ticks w) as (w1 & E1 & T1).
  rewrite (bind_eq _ _ _ _ _ E1).
  assert (U : u64 (_millis w + 1) = _millis w + 1) by (apply Z.mod_small; lia).
  rewrite U in *.
  assert (V : u64 (_millis w + 1 + duration) = _millis w + 1 + duration)
    by (apply Z.mod_small; lia).
  rewrite V.
  destruct (Z.eq_dec duration 0) as [->|NZ].
  - destruct fuel as [|fuel]; [lia|]. simpl.
    destruct (millis_ticks w1) as (w2 & E2 & T2).
    rewrite (bind_eq _ _ _ _ _ E2).
    assert (U2 : u64 (_millis w1 + 1) = _millis w1 + 1)
      by (apply Z.mod_small; lia).
    rewrite U2 in *.
    destruct (Z.ltb_spec (_millis w1 + 1) (_millis w + 1 + 0)); [lia|].
    exists w2. split; [reflexivity | lia].
  - destruct (delay_while_returns (Z.to_nat duration - 1) fuel
                (_millis w + 1 + duration) w1) as (w' & E & T); try lia.
    exists w'. split; [exact E | lia].
Qed.

End RunningClock.

Section TransmitterNeverReady.
Hypothesis no_txis : forall h, val (respond h TXIS) = 0.
Hypothesis no_nack : forall h, val (respond h NACKF) = 0.

Lemma wait_for_ack_acked fuel t w :
  wait_for_ack fuel t w = None \/
  exists w', wait_for_ack fuel t w = Some (true, w').
Proof.
  unfold wait_for_ack.
  destruct (millis_returns w) as (now & w1 & E1).
  rewrite (bind_eq _ _ _ _ _ E1).
  destruct fuel as [|fuel]; [left; reflexivity|]. right. simpl.
  unfold i2c_nack, bind at 1, bind at 1, observe. rewrite no_nack. simpl.
  eexists. reflexivity.
Qed.

Lemma wait_transmit_hangs fuel n w : wait_transmit fuel n w = None.
Proof.
  revert w. induction n as [|n IH]; intros w; simpl; [reflexivity|].
  unfold i2c_transmit_int_status, bind at 1, bind at 1, observe.
  rewrite no_txis. simpl.
  match goal with
  | |- bind (wait_for_ack fuel ?t) _ ?w0 = None =>
      destruct (wait_for_ack_acked fuel t w0) as [E|(w1 & E)]
  end.
  - unfold bind. now rewrite E.
  - rewrite (bind_eq _ _ _ _ _ E). simpl. apply IH.
Qed.

(** X8. Only the wait for an acknowledge is bounded by [I2C_TIMEOUT]; the
    wait for the transmitter is not.  Against a peripheral that never
    raises TXIS and never reports a NACK, [i2c_write], [i2c_write16] and,
    through [read_register], [wait_busy_bit] never return, whatever bound
    on iterations they are given and whatever the timeout. *)
Theorem transmit_wait_is_unbounded fuel addr data reg_address timeout w :
  i2c_write fuel addr data w = None /\
  i2c_write16 fuel addr data w = None /\
  read_register fuel reg_address w = None /\
  wait_busy_bit fuel timeout w = None.
Proof.
  assert (W16 : forall a d w0, i2c_write16 fuel a d w0 = None).
  { intros a d w0. unfold i2c_write16.
    destruct (i2c_prepare_returns a (u8 I2C_WRITE_DIR) 2 w0) as (w1 & E1).
    rewrite (bind_eq _ _ _ _ _ E1). simpl.
    unfold bind at 1. now rewrite wait_transmit_hangs. }
  assert (RR : forall r w0, read_register fuel r w0 = None).
  { intros r w0. unfold read_register, bind. now rewrite W16. }
  repeat split.
  - unfold i2c_write.
    destruct (i2c_prepare_returns addr (u8 I2C_WRITE_DIR) 1 w) as (w1 & E1).
    rewrite (bind_eq _ _ _ _ _ E1).
    unfold bind at 1. now rewrite wait_transmit_hangs.
  - apply W16.
  - apply RR.
  - unfold wait_busy_bit, bind. now rewrite RR.
Qed.

End TransmitterNeverReady.

End Waits.

Lemma waits_end_on_flag_or_deadline_witness :
  exists w',
    wait_for_ack (H := refusing) 20 10 (@boot lepton) = Some (false, w') /\
    _millis w' > 1 + 10.
Proof.
  eexists. split; [vm_compute; reflexivity|].
  match goal with
  | |- _millis ?a > _ =>
      destruct (waits_end_on_flag_or_deadline (H := refusing) 20 10
                  (@boot lepton) false a) as [A _]
  end.
  destruct A as (start & w0 & E0 & Late); [vm_compute; reflexivity|].
  vm_compute in E0. inversion E0; subst. exact Late.
Defined.

Lemma delay_sleeps_long_enough_witness :
  exists w',
    delay (H := ticking []) 10 5 (@boot lepton) = Some (tt, w') /\
    1 + 5 <= _millis w'.
Proof.
  eexists. split; [vm_compute; reflexivity|].
  match goal with
  | |- _ <= _millis ?a =>
      destruct (delay_sleeps_long_enough (H := ticking []) 10 5
                  (@boot lepton) tt a) as [A _]
  end.
  destruct A as (start & w0 & E0 & Late); [vm_compute; reflexivity|].
  vm_compute in E0. inversion E0; subst. exact Late.
Defined.

Lemma delay_returns_witness :
  exists w',
    delay (H := ticking []) 10 5 (@boot lepton) = Some (tt, w') /\
    _millis w' = 6.
Proof.
  destruct (delay_returns (H := ticking []) ltac:(reflexivity) 10 5
              (@boot lepton)) as (w' & E & T).
  - lia.
  - simpl. lia.
  - simpl. lia.
  - simpl. lia.
  - exists w'. split; [exact E | exact T].
Defined.

Lemma transmit_wait_is_unbounded_witness :
  i2c_write16 (D := lepton) (H := never_ready) 100 0x2A 0x0002 (@boot lepton)
    = None /\
  wait_busy_bit (D := lepton) (H := never_ready) 100 50 (@boot lepton) = None.
Proof.
  destruct (transmit_wait_is_unbounded (D := lepton) (H := never_ready)
              ltac:(reflexivity) ltac:(reflexivity) 100 0x2A 0x0002 0x0002
              50 (@boot lepton)) as (_ & A & _ & B).
  split; [exact A | exact B].
Defined.

(** ** Word arrays *)

Lemma low_byte_u8 x : u8 (Z.land x 255) = Z.land x 255.
Proof.
  unfold u8. change 255 with (Z.ones 8). rewrite Z.land_ones by lia.
  apply Z.mod_mod. lia.
Qed.

Lemma low_byte_range x : 0 <= Z.land x 255 < 2 ^ 8.
Proof.
  change 255 with (Z.ones 8). rewrite Z.land_ones by lia.
  apply Z.mod_pos_bound. lia.
Qed.

Lemma high_byte_range V : 0 <= V < 2 ^ 16 -> 0 <= Z.shiftr V 8 < 2 ^ 8.
Proof.
  intros R. rewrite Z.shiftr_div_pow2 by lia.
  split; [apply Z.div_pos; lia | apply Z.div_lt_upper_bound; lia].
Qed.

Lemma word_bytes_16 words :
  Forall (fun x => 0 <= x < 2 ^ 16) words ->
  word_bytes words
  = flat_map (fun x => [Z.shiftr x 8; Z.land x 255]) words.
Proof.
  unfold word_bytes.
  induction 1 as [|x rest R _ IH]; simpl; [reflexivity|].
  rewrite IH, (high_byte_of _ R), low_byte_u8. reflexivity.
Qed.

Lemma words_of_word_bytes words :
  Forall (fun x => 0 <= x < 2 ^ 16) words ->
  words_of (word_bytes words) = words.
Proof.
  intros F. rewrite (word_bytes_16 _ F).
  induction F as [|x rest R _ IH]; [reflexivity|].
  cbn [flat_map app words_of]. rewrite IH. f_equal.
  rewrite split_join by exact R.
  unfold u16. apply Z.mod_small. exact R.
Qed.

Lemma first_words_16 n : forall words,
  Forall (fun x => 0 <= x < 2 ^ 16) words ->
  Forall (fun x => 0 <= x < 2 ^ 16) (firstn n words).
Proof.
  induction n as [|n IH]; intros words F; [constructor|].
  destruct F as [|x rest R F]; constructor; auto.
Qed.

Lemma length_word_bytes words :
  List.length (word_bytes words) = (2 * List.length words)%nat.
Proof.
  unfold word_bytes. induction words as [|x rest IH]; simpl; [reflexivity|].
  rewrite IH. lia.
Qed.

Lemma length_words_of k : forall bytes,
  List.length bytes = (2 * k)%nat -> List.length (words_of bytes) = k.
Proof.
  induction k as [|k IH]; intros bytes L.
  - destruct bytes; [reflexivity | simpl in L; lia].
  - destruct bytes as [|h [|l rest]]; simpl in L; try lia.
    simpl. f_equal. apply IH. lia.
Qed.

Section WordArrays.
Context `{D : defines} `{H : hardware}.

Lemma i2c_write16_array_during fuel addr data num_words w w' :
  0 <= num_words < 2 ^ 8 ->
  (Z.to_nat num_words <= List.length data)%nat ->
  i2c_write16_array fuel addr data num_words w = Some (true, w') ->
  sent_during w w' = word_bytes (firstn (Z.to_nat num_words) data).
Proof.
  intros R Hlen E.
  pose proof (i2c_write16_array_sent _ _ _ _ _ _ R Hlen E) as S0.
  unfold sent_during. rewrite S0. apply during_app.
Qed.

(** X9. [i2c_write16_array] with a word count from 0 to 255, no larger
    than the array, that returns [true] has sent the words of the array in
    order, each as its high byte followed by its low byte, [2 * num_words]
    bytes in all; the byte count it programmed into the peripheral is
    [2 * num_words] modulo 256, so from 128 words on the peripheral was told
    256 bytes fewer than were sent. *)
Theorem i2c_write16_array_in_order fuel addr data num_words w w' :
  0 <= num_words < 2 ^ 8 ->
  (Z.to_nat num_words <= List.length data)%nat ->
  i2c_write16_array fuel addr data num_words w = Some (true, w') ->
  sent_during w w' = word_bytes (firstn (Z.to_nat num_words) data) /\
  Z.of_nat (List.length (sent_during w w')) = 2 * num_words /\
  programmed_during w w' = [(2 * num_words) mod 256] /\
  (128 <= num_words ->
   programmed_during w w' = [2 * num_words - 256]).
Proof.
  intros R Hlen E.
  pose proof (i2c_write16_array_during _ _ _ _ _ _ R Hlen E) as S1.
  assert (P : programmed_during w w' = [(2 * num_words) mod 256]).
  { unfold i2c_write16_array in E.
    apply bind_Some in E as (u & w1 & E1 & E).
    apply programmed_i2c_prepare in E1.
    apply programmed_i2c_write16_array_while in E.
    unfold programmed_during. rewrite E, E1. apply during_app. }
  split; [exact S1|]. split; [|split; [exact P|]].
  - rewrite S1, length_word_bytes, firstn_length_le by assumption. lia.
  - intros Big. rewrite P. f_equal.
    rewrite <- (Z.mod_small (2 * num_words - 256) 256) by lia.
    replace (2 * num_words) with (2 * num_words - 256 + 1 * 256) at 1 by lia.
    apply Z.mod_add. lia.
Qed.

Lemma i2c_read16_array_for_stores fuel bound n :
  bound < 256 ->
  forall i high low high_byte data ptr w data' w',
    0 <= i <= bound ->
    i2c_read16_array_for fuel n bound i high low high_byte data ptr w
      = Some ((true, data'), w') ->
    exists taken,
      received w' = received w ++ taken /\
      Z.of_nat (List.length taken) = bound - i /\
      data' = put ptr
                (if high_byte then words_of taken
                 else match taken with
                      | [] => []
                      | b :: rest =>
                          u16 (Z.lor (Z.shiftl high 8) b) :: words_of rest
                      end)
                data.
Proof.
  intros Hb. induction n as [|n IH];
    intros i high low hb data ptr w data' w' Ri E;
    simpl in E; [discriminate|].
  destruct (Z.ltb_spec i bound) as [Lt|Ge].
  - apply bind_Some in E as (ready & w1 & E1 & E).
    apply received_wait in E1. destruct ready; [|inversion E].
    assert (U : u8 (i + 1) = i + 1) by (apply Z.mod_small; lia).
    destruct hb; apply bind_Some in E as (b & w2 & E2 & E);
      apply received_i2c_get_data in E2 as [E2 _];
      rewrite U in E; apply IH in E as (taken & R & L & P); try lia;
      exists (b :: taken); (split; [|split]);
      try (rewrite R, E2, E1, <- app_assoc; reflexivity);
      try (simpl List.length; lia);
      rewrite P; reflexivity.
  - inversion E; subst; clear E. exists []. split; [|split].
    + now rewrite app_nil_r.
    + simpl. lia.
    + destruct hb; reflexivity.
Qed.

Lemma i2c_read16_array_words fuel addr data num_words w data' w' :
  0 <= num_words < 2 ^ 8 ->
  (Z.to_nat num_words <= List.length data)%nat ->
  i2c_read16_array fuel addr data num_words w = Some ((true, data'), w') ->
  num_words <= 127 /\
  exists taken,
    received w' = received w ++ taken /\
    List.length taken = (2 * Z.to_nat num_words)%nat /\
    data' = words_of taken ++ skipn (Z.to_nat num_words) data.
Proof.
  intros R Hlen E.
  assert (Small : num_words <= 127).
  { destruct (Z.le_gt_cases num_words 127) as [|Big]; [assumption|].
    exfalso. eapply i2c_read16_array_never_true; [|exact E]. lia. }
  split; [exact Small|].
  unfold i2c_read16_array in E.
  apply bind_Some in E as (u & w1 & E1 & E).
  apply (frame_i2c_prepare received received_call) in E1.
  apply i2c_read16_array_for_stores in E as (taken & T & L & P); try lia.
  exists taken. split; [now rewrite T, E1|]. split; [lia|].
  assert (LW : List.length (words_of taken) = Z.to_nat num_words)
    by (apply length_words_of; lia).
  rewrite P, put_split by (rewrite LW; simpl; lia).
  simpl. rewrite LW. reflexivity.
Qed.

(** X10. [i2c_read16_array] with a word count from 0 to 255, no larger
    than the array, returns [true] only for at most 127 words; it has then
    received exactly [2 * num_words] bytes and the array holds, from its
    start and in the order received, the words made of successive pairs,
    first byte high, second byte low, with the rest of the array
    untouched. *)
Theorem i2c_read16_array_in_order fuel addr data num_words w data' w' :
  0 <= num_words < 2 ^ 8 ->
  (Z.to_nat num_words <= List.length data)%nat ->
  i2c_read16_array fuel addr data num_words w = Some ((true, data'), w') ->
  num_words <= 127 /\
  List.length (received_during w w') = (2 * Z.to_nat num_words)%nat /\
  data' = words_of (received_during w w')
          ++ skipn (Z.to_nat num_words) data.
Proof.
  intros R Hlen E.
  apply i2c_read16_array_words in E as (Small & taken & T & L & B);
    try assumption.
  assert (RD : received_during w w' = taken).
  { unfold received_during. rewrite T. apply during_app. }
  rewrite RD. repeat split; assumption.
Qed.

(** X11. Word arrays round trip.  If [i2c_write16_array] has sent
    [num_words] 16-bit words and [i2c_read16_array], asked for as many,
    returns [true] having received the bytes that were sent, the array it
    fills starts with exactly the words that were written. *)
Theorem word_array_round_trip fuel addr fuel' addr' data buffer num_words
    w w1 w2 buffer' w3 :
  0 <= num_words < 2 ^ 8 ->
  (Z.to_nat num_words <= List.length data)%nat ->
  (Z.to_nat num_words <= List.length buffer)%nat ->
  Forall (fun x => 0 <= x < 2 ^ 16) data ->
  i2c_write16_array fuel addr data num_words w = Some (true, w1) ->
  i2c_read16_array fuel' addr' buffer num_words w2
    = Some ((true, buffer'), w3) ->
  received_during w2 w3 = sent_during w w1 ->
  buffer' = firstn (Z.to_nat num_words) data
            ++ skipn (Z.to_nat num_words) buffer.
Proof.
  intros R Ld Lb F Ew Er Same.
  apply i2c_write16_array_during in Ew; try assumption.
  apply i2c_read16_array_words in Er as (_ & taken & T & _ & B);
    try assumption.
  assert (RD : received_during w2 w3 = taken).
  { unfold received_during. rewrite T. apply during_app. }
  rewrite B, <- RD, Same, Ew. f_equal. apply words_of_word_bytes.
  apply first_words_16. exact F.
Qed.

End WordArrays.

Lemma i2c_write16_array_in_order_witness :
  exists w',
    i2c_write16_array (D := lepton) (H := steady 0) 2 0x2A
      (repeat 0x1234 128) 128 (@boot lepton) = Some (true, w') /\
    Z.of_nat (List.length (sent_during (@boot lepton) w')) = 256 /\
    programmed_during (@boot lepton) w' = [0].
Proof.
  destruct (i2c_write16_array_in_order (D := lepton) (H := steady 0)
              2 0x2A (repeat 0x1234 128) 128 (@boot lepton)
              (state_after
                 (i2c_write16_array (D := lepton) (H := steady 0) 2 0x2A
                    (repeat 0x1234 128) 128) (@boot lepton)))
    as (_ & L & _ & P).
  - lia.
  - simpl. lia.
  - vm_compute. reflexivity.
  - eexists. split; [vm_compute; reflexivity|].
    split; [exact L | apply P; lia].
Defined.

Lemma i2c_read16_array_in_order_witness :
  exists w',
    i2c_read16_array (D := lepton) (H := feeds [0x12; 0x34; 0x56; 0x78])
      8 0x2A [0; 0; 9] 2 (@boot lepton)
    = Some ((true, [0x1234; 0x5678; 9]), w') /\
    words_of (received_during (@boot lepton) w') = [0x1234; 0x5678].
Proof.
  destruct (i2c_read16_array_in_order (D := lepton)
              (H := feeds [0x12; 0x34; 0x56; 0x78]) 8 0x2A [0; 0; 9] 2
              (@boot lepton) [0x1234; 0x5678; 9]
              (state_after
                 (i2c_read16_array (D := lepton)
                    (H := feeds [0x12; 0x34; 0x56; 0x78]) 8 0x2A [0; 0; 9] 2)
                 (@boot lepton)))
    as (_ & _ & B).
  - lia.
  - simpl. lia.
  - vm_compute. reflexivity.
  - exists (state_after
              (i2c_read16_array (D := lepton)
                 (H := feeds [0x12; 0x34; 0x56; 0x78]) 8 0x2A [0; 0; 9] 2)
              (@boot lepton)).
    split; [vm_compute; reflexivity|].
    apply app_inv_tail with (l := skipn (Z.to_nat 2) [0; 0; 9]).
    rewrite <- B. reflexivity.
Defined.

Lemma word_array_round_trip_witness :
  exists w1 w3,
    i2c_write16_array (D := lepton) (H := feeds [0xBE; 0xEF; 0x12; 0x34])
      8 0x2A [0xBEEF; 0x1234] 2 (@boot lepton) = Some (true, w1) /\
    i2c_read16_array (D := lepton) (H := feeds [0xBE; 0xEF; 0x12; 0x34])
      8 0x2A [0; 0; 7] 2 w1 = Some ((true, [0xBEEF; 0x1234; 7]), w3).
Proof.
  eexists. eexists. split; [vm_compute; reflexivity|].
  match goal with
  | |- i2c_read16_array _ _ _ _ ?a = Some (_, ?b) =>
      pose proof (word_array_round_trip (D := lepton)
                    (H := feeds [0xBE; 0xEF; 0x12; 0x34]) 8 0x2A 8 0x2A
                    [0xBEEF; 0x1234] [0; 0; 7] 2 (@boot lepton) a a
                    [0xBEEF; 0x1234; 7]
                    (state_after
                       (i2c_read16_array (D := lepton)
                          (H := feeds [0xBE; 0xEF; 0x12; 0x34]) 8 0x2A
                          [0; 0; 7] 2) a)) as RT
  end.
  assert (B : [0xBEEF; 0x1234; 7]
              = firstn (Z.to_nat 2) [0xBEEF; 0x1234]
                ++ skipn (Z.to_nat 2) [0; 0; 7]).
  { apply RT.
    - lia.
    - simpl. lia.
    - simpl. lia.
    - repeat constructor; lia.
    - vm_compute. reflexivity.
    - vm_compute. reflexivity.
    - vm_compute. reflexivity. }
  vm_compute. reflexivity.
Defined.

(** ** Register access *)

Section Registers.
Context `{D : defines} `{H : hardware}.

Lemma programmed_i2c_write16_for fuel bytes : forall w ok w',
  i2c_write16_for fuel bytes w = Some (ok, w') ->
  programmed w' = programmed w.
Proof.
  induction bytes as [|b rest IH]; intros w ok w' E; simpl in E.
  - inversion E. reflexivity.
  - apply bind_Some in E as (ready & w1 & E1 & E).
    apply programmed_wait_transmit in E1.
    destruct ready; [|inversion E; subst; exact E1].
    apply bind_Some in E as (u & w2 & E2 & E).
    unfold call in E2. inversion E2; subst; clear E2.
    apply IH in E. rewrite E. exact E1.
Qed.

Lemma observe_RXDR_keeps w v w' :
  observe RXDR w = Some (v, w') ->
  sent w' = sent w /\ programmed w' = programmed w.
Proof.
  unfold observe. intros E. inversion E; subst; clear E. split.
  - apply (frame_ticks sent sent_clock).
  - apply (frame_ticks programmed programmed_clock).
Qed.

Lemma i2c_get_data_keeps w b w' :
  i2c_get_data w = Some (b, w') ->
  sent w' = sent w /\ programmed w' = programmed w.
Proof.
  unfold i2c_get_data. intros E. apply bind_Some in E as (v & w1 & E1 & E).
  inversion E; subst. now apply observe_RXDR_keeps in E1.
Qed.

Lemma i2c_read16_effects fuel addr w r w' :
  i2c_read16 fuel addr w = Some (r, w') ->
  sent w' = sent w /\
  programmed w' = programmed w ++ [2] /\
  (r = None -> (List.length (received_during w w') <= 1)%nat).
Proof.
  unfold i2c_read16. intros E.
  apply bind_Some in E as (u & w1 & E1 & E).
  pose proof (frame_i2c_prepare sent sent_call _ _ _ _ _ _ E1) as S1.
  pose proof (frame_i2c_prepare received received_call _ _ _ _ _ _ E1) as R1.
  apply programmed_i2c_prepare in E1.
  apply bind_Some in E as (ok0 & w2 & E2 & E).
  pose proof (frame_wait_for_empty_data_reg sent sent_clock sent_seen
                _ _ _ _ _ E2) as S2.
  pose proof (frame_wait_for_empty_data_reg programmed programmed_clock
                programmed_seen _ _ _ _ _ E2) as P2.
  apply received_wait in E2.
  destruct ok0.
  - apply bind_Some in E as (b0 & w3 & E3 & E).
    destruct (i2c_get_data_keeps _ _ _ E3) as [S3 P3].
    apply received_i2c_get_data in E3 as [E3 _].
    apply bind_Some in E as (ok1 & w4 & E4 & E).
    pose proof (frame_wait_for_empty_data_reg sent sent_clock sent_seen
                  _ _ _ _ _ E4) as S4.
    pose proof (frame_wait_for_empty_data_reg programmed programmed_clock
                  programmed_seen _ _ _ _ _ E4) as P4.
    apply received_wait in E4.
    destruct ok1.
    + apply bind_Some in E as (b1 & w5 & E5 & E).
      destruct (i2c_get_data_keeps _ _ _ E5) as [S5 P5].
      inversion E; subst; clear E.
      repeat split; [congruence | congruence | discriminate].
    + inversion E; subst; clear E.
      repeat split; [congruence | congruence |].
      intros _. unfold received_during.
      rewrite E4, E3, E2, R1, during_app. simpl. lia.
  - inversion E; subst; clear E.
    repeat split; [congruence | congruence |].
    intros _. unfold received_during. rewrite E2, R1, during_nil. simpl. lia.
Qed.

(** X12. [read_register] points, then reads.  When it succeeds for a
    16-bit register address it has run two transfers of two bytes each,
    sent exactly the address, high byte first, and its result is the two
    bytes it received, the first as high byte.  When it fails it has
    received at most one byte, and none if the address could not be
    written. *)
Theorem read_register_points_then_reads fuel reg_address w r w' :
  0 <= reg_address < 2 ^ 16 ->
  read_register fuel reg_address w = Some (r, w') ->
  match r with
  | Some value =>
      sent_during w w' = [Z.shiftr reg_address 8; Z.land reg_address 255] /\
      programmed_during w w' = [2; 2] /\
      exists high low,
        received_during w w' = [high; low] /\
        value = Z.lor (Z.shiftl high 8) low
  | None =>
      (List.length (received_during w w') <= 1)%nat /\
      (programmed_during w w' = [2] -> received_during w w' = [])
  end.
Proof.
  intros R E. unfold read_register in E.
  apply bind_Some in E as (ok & w1 & E1 & E).
  pose proof (received_i2c_write16 _ _ _ _ _ _ E1) as R1.
  assert (P1 : programmed w1 = programmed w ++ [2]).
  { unfold i2c_write16 in E1. apply bind_Some in E1 as (u & w0 & E0 & E1).
    apply programmed_i2c_prepare in E0.
    apply programmed_i2c_write16_for in E1. now rewrite E1. }
  destruct ok; simpl in E.
  - destruct (i2c_read16_effects _ _ _ _ _ E) as (S2 & P2 & F2).
    pose proof (i2c_write16_sent _ _ _ _ _ E1) as S1.
    rewrite (high_byte_of _ R), low_byte_of in S1.
    destruct r as [value|].
    + split; [|split].
      * unfold sent_during in *. now rewrite S2.
      * unfold programmed_during. rewrite P2, P1, <- app_assoc.
        apply during_app.
      * apply i2c_read16_received in E as (hi & lo & Er & _ & _ & Ev).
        exists hi, lo. split; [|exact Ev].
        unfold received_during in *. now rewrite <- R1.
    + split.
      * unfold received_during in *. rewrite <- R1. now apply F2.
      * intros P. exfalso. unfold programmed_during in P.
        rewrite P2, P1, <- app_assoc, during_app in P. discriminate.
  - inversion E; subst; clear E. split.
    + unfold received_during. rewrite R1, during_nil. simpl. lia.
    + intros _. unfold received_during. rewrite R1. apply during_nil.
Qed.

(** X13. [write_register], when it succeeds for a 16-bit address and a
    16-bit value, has run one transfer of four bytes: the address, high
    byte first, then the value, high byte first. *)
Theorem write_register_one_transfer fuel reg_address value w w' :
  0 <= reg_address < 2 ^ 16 -> 0 <= value < 2 ^ 16 ->
  write_register fuel reg_address value w = Some (true, w') ->
  sent_during w w'
  = [Z.shiftr reg_address 8; Z.land reg_address 255;
     Z.shiftr value 8; Z.land value 255] /\
  programmed_during w w' = [4].
Proof.
  intros Rr Rv E. unfold write_register in E.
  apply bind_Some in E as (ok & w1 & E1 & E).
  destruct ok; inversion E; subst; clear E. split.
  - apply i2c_write16_array_during in E1; [|lia|simpl; lia].
    rewrite E1.
    change (firstn (Z.to_nat 2) [reg_address; value])
      with [reg_address; value].
    rewrite word_bytes_16 by (repeat constructor; lia). reflexivity.
  - apply i2c_write16_array_programmed in E1. exact E1.
Qed.

End Registers.

Lemma read_register_points_then_reads_witness :
  exists w',
    read_register (D := lepton) (H := feeds [0x03; 0x00]) 4 0x0002
      (@boot lepton) = Some (Some 0x0300, w') /\
    sent_during (@boot lepton) w' = [0x00; 0x02] /\
    programmed_during (@boot lepton) w' = [2; 2].
Proof.
  pose proof (read_register_points_then_reads (D := lepton)
                (H := feeds [0x03; 0x00]) 4 0x0002 (@boot lepton)
                (Some 0x0300)
                (state_after
                   (read_register (D := lepton) (H := feeds [0x03; 0x00])
                      4 0x0002) (@boot lepton))) as RR.
  destruct RR as (S & P & _).
  - lia.
  - vm_compute. reflexivity.
  - eexists. split; [vm_compute; reflexivity|]. split; [exact S | exact P].
Defined.

Lemma write_register_one_transfer_witness :
  exists w',
    write_register (D := lepton) (H := steady 0) 2 0x0004 0x0205
      (@boot lepton) = Some (true, w') /\
    sent_during (@boot lepton) w' = [0x00; 0x04; 0x02; 0x05].
Proof.
  destruct (write_register_one_transfer (D := lepton) (H := steady 0)
              2 0x0004 0x0205 (@boot lepton)
              (state_after
                 (write_register (D := lepton) (H := steady 0) 2 0x0004
                    0x0205) (@boot lepton))) as (S & _).
  - lia.
  - lia.
  - vm_compute. reflexivity.
  - eexists. split; [vm_compute; reflexivity | exact S].
Defined.

(** ** Commands *)

Section Commands.
Context `{D : defines} `{H : hardware}.

Lemma wait_busy_bit_while_ready fuel n end_time : forall status w status' w',
  wait_busy_bit_while fuel n end_time status w = Some (Some status', w') ->
  busy status' = false ->
  (status' = status /\ w' = w) \/
  exists wr, read_register fuel LEP_I2C_STATUS_REG wr = Some (Some status', w').
Proof.
  induction n as [|n IH]; intros status w status' w' E B; simpl in E;
    [discriminate|].
  destruct (busy status) eqn:Bs.
  - apply bind_Some in E as (now & w1 & _ & E).
    destruct (now <? end_time).
    + apply bind_Some in E as (u & w2 & _ & E).
      apply bind_Some in E as (r & w3 & E3 & E).
      destruct r as [s3|]; [|inversion E].
      apply IH in E as [[-> ->]|Later]; eauto.
    + inversion E; subst. congruence.
  - inversion E; subst. left. split; reflexivity.
Qed.

(** X14. Whenever [wait_busy_bit] returns [true], it does so in the state
    a successful read of STATUS has just left, changed only in the
    last-error slot: the word that read returned has its busy bit clear,
    its error-code field is what [get_last_flir_result] now returns, a
    value from 0 to 255, and nothing has been printed. *)
Theorem wait_busy_bit_success fuel timeout w w' :
  wait_busy_bit fuel timeout w = Some (true, w') ->
  exists status wr w1,
    read_register fuel LEP_I2C_STATUS_REG wr = Some (Some status, w1) /\
    Z.land status LEP_I2C_STATUS_BUSY_BIT_MASK = 0 /\
    w' = set_last_flir_error (error_code status) w1 /\
    get_last_flir_result w' = error_code status /\
    0 <= get_last_flir_result w' < 256 /\
    console w' = console w.
Proof.
  intros E. unfold wait_busy_bit in E.
  apply bind_Some in E as ([status|] & w1 & E1 & E); [|inversion E].
  pose proof (keep_read_register console console_clock console_log
                _ _ _ _ _ E1) as C1.
  assert (Clear : forall s, busy s = false ->
                    Z.land s LEP_I2C_STATUS_BUSY_BIT_MASK = 0).
  { intros s Bs. unfold busy in Bs.
    destruct (Z.eqb_spec (Z.land s LEP_I2C_STATUS_BUSY_BIT_MASK) 0);
      [assumption | discriminate]. }
  destruct (busy status) eqn:B; simpl in E.
  - apply bind_Some in E as (now & w2 & E2 & E).
    pose proof (keep_flir_millis console console_clock console_log
                  _ _ _ E2) as C2.
    apply bind_Some in E as ([status'|] & w3 & E3 & E); [|inversion E].
    pose proof (keep_wait_busy_bit_while console console_clock console_log
                  _ _ _ _ _ _ _ E3) as C3.
    destruct (busy status') eqn:B'; simpl in E; [inversion E|].
    inversion E; subst; clear E.
    apply wait_busy_bit_while_ready in E3 as [[-> _]|(wr & Er)];
      [congruence | | exact B'].
    exists status', wr, w3. repeat split; auto.
    + apply u8_range.
    + apply u8_range.
    + simpl. congruence.
  - inversion E; subst; clear E.
    exists status, w, w1. repeat split; auto; apply u8_range.
Qed.

Lemma length_i2c_read16_array_for fuel bound n :
  forall i high low high_byte data ptr w r w',
    i2c_read16_array_for fuel n bound i high low high_byte data ptr w
      = Some (r, w') ->
    List.length (snd r) = List.length data.
Proof.
  induction n as [|n IH]; intros i high low hb data ptr w r w' E;
    simpl in E; [discriminate|].
  destruct (i <? bound); [|inversion E; reflexivity].
  apply bind_Some in E as (ready & w1 & _ & E).
  destruct ready; [|inversion E; reflexivity].
  destruct hb; apply bind_Some in E as (b & w2 & _ & E); apply IH in E;
    rewrite E; [reflexivity | apply length_poke].
Qed.

Lemma read_data_register_outcome fuel read_words max_length w ok data' w' :
  read_data_register fuel read_words max_length w = Some ((ok, data'), w') ->
  List.length data' = List.length read_words /\
  (ok = true ->
   max_length <> 0 /\
   exists w2,
     i2c_read16_array fuel (u8 LEP_I2C_DEVICE_ADDRESS) read_words max_length
       w2 = Some ((true, data'), w')).
Proof.
  unfold read_data_register. intros E.
  apply bind_Some in E as (sent_ok & w1 & E1 & E).
  destruct sent_ok; cbv beta iota delta [negb fst snd] in E;
    [|unfold ret in E; injection E; intros; subst;
      split; [reflexivity | discriminate]].
  apply bind_Some in E as ([num_bytes|] & w2 & E2 & E);
    [|unfold ret in E; injection E; intros; subst;
      split; [reflexivity | discriminate]].
  destruct (0 =? num_bytes) eqn:NZ; cbv beta iota delta [negb fst snd] in E;
    [unfold ret in E; injection E; intros; subst;
     split; [reflexivity | discriminate]|].
  apply Z.eqb_neq in NZ.
  destruct (max_length * 2 =? num_bytes) eqn:Eq;
    cbv beta iota delta [negb fst snd] in E;
    [|unfold ret in E; injection E; intros; subst;
      split; [reflexivity | discriminate]].
  apply Z.eqb_eq in Eq.
  apply bind_Some in E as ([ok' buf] & w3 & E3 & E).
  assert (L : List.length buf = List.length read_words).
  { unfold i2c_read16_array in E3.
    apply bind_Some in E3 as (u & w0 & _ & E3).
    apply length_i2c_read16_array_for in E3. exact E3. }
  destruct ok'; cbv beta iota delta [negb fst snd] in E; unfold ret in E;
    injection E; intros; subst; clear E;
    (split; [exact L|]); [|discriminate].
  intros _. split; [lia|]. exists w2. exact E3.
Qed.

Lemma get_flir_command_outcome fuel cmd_code data_words num_words w ok
    data' w' :
  get_flir_command fuel cmd_code data_words num_words w
    = Some ((ok, data'), w') ->
  List.length data' = List.length data_words /\
  (ok = true ->
   num_words <> 0 /\
   exists w2,
     i2c_read16_array fuel (u8 LEP_I2C_DEVICE_ADDRESS) data_words num_words
       w2 = Some ((true, data'), w')).
Proof.
  unfold get_flir_command. intros E.
  apply bind_Some in E as (ready & w1 & _ & E).
  destruct ready;
    [|unfold ret in E; injection E; intros; subst;
      split; [reflexivity | discriminate]].
  apply bind_Some in E as (written & w2 & _ & E).
  destruct written;
    [|unfold ret in E; injection E; intros; subst;
      split; [reflexivity | discriminate]].
  apply bind_Some in E as (done & w3 & _ & E).
  destruct done;
    [|unfold ret in E; injection E; intros; subst;
      split; [reflexivity | discriminate]].
  apply bind_Some in E as ([ok' buf] & w4 & E4 & E).
  apply read_data_register_outcome in E4 as (L & T).
  destruct ok'; simpl in E; unfold ret in E;
    injection E; intros; subst; clear E;
    (split; [exact L|]); [|discriminate].
  intros _. apply T. reflexivity.
Qed.

(** X15. A GET that succeeds, for a word count from 0 to 255 no larger
    than the array, was for 1 to 127 words, and the array then starts with
    the words made of the last [2 * num_words] bytes received, pair by
    pair, first byte high, in the order received; the rest of the array is
    untouched.  A GET of no words, or of 128 words or more, never
    succeeds. *)
Theorem get_flir_command_returns_words fuel cmd_code data_words num_words w
    data' w' :
  0 <= num_words < 2 ^ 8 ->
  (Z.to_nat num_words <= List.length data_words)%nat ->
  get_flir_command fuel cmd_code data_words num_words w
    = Some ((true, data'), w') ->
  1 <= num_words <= 127 /\
  data' = words_of (skipn (List.length (received w') - 2 * Z.to_nat num_words)
                      (received w'))
          ++ skipn (Z.to_nat num_words) data_words.
Proof.
  intros R Hlen E.
  apply get_flir_command_outcome in E as (_ & T).
  destruct (T eq_refl) as (NZ & w2 & E2).
  apply i2c_read16_array_words in E2 as (Small & taken & Rc & L & B);
    try assumption.
  split; [lia|]. rewrite B. f_equal. f_equal.
  rewrite Rc, length_app, L.
  replace (List.length (received w2) + 2 * Z.to_nat num_words
           - 2 * Z.to_nat num_words)%nat
    with (List.length (received w2)) by lia.
  symmetry. apply during_app.
Qed.

End Commands.

Lemma wait_busy_bit_success_witness :
  exists w',
    wait_busy_bit (D := lepton)
      (H := replay (busy_read ++ [quiet; quiet; quiet; one_ms]
                    ++ [Reply 0 1; quiet; Reply 0 0; Reply 0 1; quiet;
                        Reply 0 0; quiet; Reply 0 1; Reply 0 7; quiet;
                        Reply 0 1; Reply 0 0]) quiet)
      4 50 (@boot lepton) = Some (true, w') /\
    get_last_flir_result w' = 7.
Proof.
  destruct (wait_busy_bit_success (D := lepton)
      (H := replay (busy_read ++ [quiet; quiet; quiet; one_ms]
                    ++ [Reply 0 1; quiet; Reply 0 0; Reply 0 1; quiet;
                        Reply 0 0; quiet; Reply 0 1; Reply 0 7; quiet;
                        Reply 0 1; Reply 0 0]) quiet)
      4 50 (@boot lepton)
      (state_after
         (wait_busy_bit (D := lepton)
            (H := replay (busy_read ++ [quiet; quiet; quiet; one_ms]
                          ++ [Reply 0 1; quiet; Reply 0 0; Reply 0 1; quiet;
                              Reply 0 0; quiet; Reply 0 1; Reply 0 7; quiet;
                              Reply 0 1; Reply 0 0]) quiet) 4 50)
         (@boot lepton)))
    as (status & wr & w1 & _ & _ & _ & _ & Range & _).
  - vm_compute. reflexivity.
  - eexists. split; vm_compute; reflexivity.
Defined.

Lemma get_flir_command_returns_words_witness :
  exists w',
    get_flir_command (D := lepton)
      (H := feeds [0; 0; 0; 0; 0; 4; 0x12; 0x34; 0x56; 0x78])
      8 0x0204 [0; 0; 5] 2 (@boot lepton)
    = Some ((true, [0x1234; 0x5678; 5]), w').
Proof.
  destruct (get_flir_command_returns_words (D := lepton)
              (H := feeds [0; 0; 0; 0; 0; 4; 0x12; 0x34; 0x56; 0x78])
              8 0x0204 [0; 0; 5] 2 (@boot lepton) [0x1234; 0x5678; 5]
              (state_after
                 (get_flir_command (D := lepton)
                    (H := feeds [0; 0; 0; 0; 0; 4; 0x12; 0x34; 0x56; 0x78])
                    8 0x0204 [0; 0; 5] 2) (@boot lepton)))
    as (_ & _).
  - lia.
  - simpl. lia.
  - vm_compute. reflexivity.
  - eexists. vm_compute. reflexivity.
Defined.

(** ** Re-encoding a command code *)

Ltac by_bits :=
  repeat match goal with
         | |- context [Z.testbit ?a ?n] =>
             lazymatch a with
             | Z.land _ _ => fail
             | Z.lor _ _ => fail
             | _ => destruct (Z.testbit a n)
             end
         end.

(** X16. With 16-bit masks of which the type mask shares no bit with the
    two id masks, a command code has no bit outside the three masks, and
    [command_code] applied to a command code and the same type gives that
    command code back: a code that already carries its type can be passed
    through [command_code] again without harm. *)
Theorem command_code_reencodes `{D : defines} cmd_id cmd_type :
  0 <= LEP_I2C_COMMAND_MODULE_ID_BIT_MASK < 2 ^ 16 ->
  0 <= LEP_I2C_COMMAND_ID_BIT_MASK < 2 ^ 16 ->
  0 <= LEP_I2C_COMMAND_TYPE_BIT_MASK < 2 ^ 16 ->
  Z.land (Z.lor LEP_I2C_COMMAND_MODULE_ID_BIT_MASK LEP_I2C_COMMAND_ID_BIT_MASK)
         LEP_I2C_COMMAND_TYPE_BIT_MASK = 0 ->
  Z.land (command_code cmd_id cmd_type)
         (Z.lor (Z.lor LEP_I2C_COMMAND_MODULE_ID_BIT_MASK
                       LEP_I2C_COMMAND_ID_BIT_MASK)
                LEP_I2C_COMMAND_TYPE_BIT_MASK)
    = command_code cmd_id cmd_type /\
  command_code (command_code cmd_id cmd_type) cmd_type
    = command_code cmd_id cmd_type.
Proof.
  intros Rm Ri Rt Hdisj.
  apply fits_16 in Rm, Ri, Rt.
  assert (Bm : forall n, Z.testbit LEP_I2C_COMMAND_MODULE_ID_BIT_MASK n
                         && Z.testbit (Z.ones 16) n
                         = Z.testbit LEP_I2C_COMMAND_MODULE_ID_BIT_MASK n).
  { intros n. rewrite <- Z.land_spec, Rm. reflexivity. }
  assert (Bi : forall n, Z.testbit LEP_I2C_COMMAND_ID_BIT_MASK n
                         && Z.testbit (Z.ones 16) n
                         = Z.testbit LEP_I2C_COMMAND_ID_BIT_MASK n).
  { intros n. rewrite <- Z.land_spec, Ri. reflexivity. }
  assert (Bt : forall n, Z.testbit LEP_I2C_COMMAND_TYPE_BIT_MASK n
                         && Z.testbit (Z.ones 16) n
                         = Z.testbit LEP_I2C_COMMAND_TYPE_BIT_MASK n).
  { intros n. rewrite <- Z.land_spec, Rt. reflexivity. }
  assert (Bd : forall n,
             (Z.testbit LEP_I2C_COMMAND_MODULE_ID_BIT_MASK n
              || Z.testbit LEP_I2C_COMMAND_ID_BIT_MASK n)
             && Z.testbit LEP_I2C_COMMAND_TYPE_BIT_MASK n = false).
  { intros n. rewrite <- Z.lor_spec, <- Z.land_spec, Hdisj.
    apply Z.bits_0. }
  unfold command_code. rewrite !u16_land. split.
  - apply Z.bits_inj'. intros n _.
    repeat rewrite ?Z.land_spec, ?Z.lor_spec.
    specialize (Bm n); specialize (Bi n); specialize (Bt n);
      specialize (Bd n).
    revert Bm Bi Bt Bd. by_bits; simpl; congruence.
  - apply Z.bits_inj'. intros n _.
    repeat rewrite ?Z.land_spec, ?Z.lor_spec.
    specialize (Bm n); specialize (Bi n); specialize (Bt n);
      specialize (Bd n).
    revert Bm Bi Bt Bd. by_bits; simpl; congruence.
Qed.

Lemma command_code_reencodes_witness :
  command_code (D := lepton) (command_code (D := lepton) 0x0E10 0x0001) 0x0001
  = command_code (D := lepton) 0x0E10 0x0001.
Proof.
  destruct (command_code_reencodes (D := lepton) 0x0E10 0x0001) as (_ & A).
  - simpl; lia.
  - simpl; lia.
  - simpl; lia.
  - reflexivity.
  - exact A.
Defined.

(** ** Loading an image into the input tensor *)

Lemma skipn_nth {A} (d : A) i : forall l,
  (i < List.length l)%nat -> skipn i l = nth i l d :: skipn (S i) l.
Proof.
  induction i as [|i IH]; intros [|x t] L; simpl in *; try lia.
  - reflexivity.
  - apply IH. lia.
Qed.

Lemma load_data_for_put n : forall i data int8,
  (i + n <= List.length data)%nat ->
  main_functions.load_data_for n i data int8
  = put i (firstn n (skipn i data)) int8.
Proof.
  induction n as [|n IH]; intros i data int8 L; simpl; [reflexivity|].
  rewrite IH by lia.
  rewrite (skipn_nth 0 i data) by lia. reflexivity.
Qed.

(** X17. [load_data], for a tensor of [bytes] bytes with both the source
    and the tensor's buffer at least that long, copies the first [bytes]
    elements of the source to the start of the buffer and changes nothing
    else: not the rest of the buffer, not its length, not the [bytes]
    field. *)
Theorem load_data_copies data input :
  0 <= main_functions.bytes input ->
  (Z.to_nat (main_functions.bytes input) <= List.length data)%nat ->
  (Z.to_nat (main_functions.bytes input)
   <= List.length (main_functions.data_int8 input))%nat ->
  let output := main_functions.load_data data input in
  main_functions.data_int8 output
  = firstn (Z.to_nat (main_functions.bytes input)) data
    ++ skipn (Z.to_nat (main_functions.bytes input))
         (main_functions.data_int8 input) /\
  List.length (main_functions.data_int8 output)
  = List.length (main_functions.data_int8 input) /\
  main_functions.bytes output = main_functions.bytes input.
Proof.
  intros R Ld Li output. unfold output, main_functions.load_data. simpl.
  rewrite load_data_for_put by (simpl; lia).
  split; [|split; [apply length_put | reflexivity]].
  simpl. rewrite put_split.
  - simpl. rewrite firstn_length_le by assumption. reflexivity.
  - rewrite firstn_length_le by assumption. simpl. lia.
Qed.

Lemma load_data_copies_witness :
  main_functions.data_int8
    (main_functions.load_data [1; -2; 3; 4]
       (main_functions.Tensor 3 [0; 0; 0; 9; 9]))
  = [1; -2; 3; 9; 9].
Proof.
  destruct (load_data_copies [1; -2; 3; 4]
              (main_functions.Tensor 3 [0; 0; 0; 9; 9])) as (A & _).
  - simpl. lia.
  - simpl. lia.
  - simpl. lia.
  - exact A.
Defined.
